(** * Repository explorer tools: a shallow embedding of [tools.py]

    The four agent tools of the repository ([list_directory_contents],
    [load_file_contents], [perform_string_search], [perform_semantic_search])
    are embedded as functions over an explicit model of what Python gives
    them: strings as sequences of code points, exceptions as a result type,
    and the operating system, the [re] module and Streamlit's session state
    as an environment. The embedding is of the function bodies; what the
    [function_tool] decorator of the agents library does with a raised
    exception is outside it. *)

From Stdlib Require Import ZArith NArith List String Ascii Lia.
From Stdlib Require Import Sorting.Sorted Sorting.Permutation.
From Stdlib Require DecimalString.
From stdpp Require Import base tactics option list gmap strings.

Local Open Scope Z_scope.

(** ** Python values *)

(** A Python [str] is a sequence of Unicode code points; [len] counts them. *)
Abbreviation char := N (only parsing).
Abbreviation str := (list N) (only parsing).

(** An ASCII literal of the source as a [str]. *)
Definition lit (s : string) : str :=
  List.map N_of_ascii (list_ascii_of_string s).

Definition len {A} (l : list A) : Z := Z.of_nat (length l).

(** Exceptions that the modelled calls can raise. *)
Inductive exn : Type :=
| FileNotFoundError
| PermissionError
| NotADirectoryError
| IsADirectoryError
| UnicodeDecodeError
| AttributeError
| ReError
| OtherError (msg : str).

(** The outcome of a call: a value, or a raised exception. *)
Inductive result (A : Type) : Type :=
| Return (a : A)
| Raise (e : exn).
Arguments Return {A} a.
Arguments Raise {A} e.

#[global] Instance result_ret : MRet result := fun A a => Return a.
#[global] Instance result_bind : MBind result := fun A B k m =>
  match m with
  | Return a => k a
  | Raise e => Raise e
  end.

(** *** Sequence operations *)

Definition str_eqb (a b : str) : bool := bool_decide (a = b).

(** [s.startswith(p)] *)
Fixpoint startswith (p s : str) : bool :=
  match p, s with
  | [], _ => true
  | _ :: _, [] => false
  | a :: p', b :: s' => N.eqb a b && startswith p' s'
  end.

(** [q in s] on strings: [q] occurs as a contiguous run of [s]. *)
Fixpoint contains (q s : str) : bool :=
  if startswith q s then true
  else match s with
       | [] => false
       | _ :: s' => contains q s'
       end.

(** [any(f(x) for x in l)], which stops at the first success. *)
Fixpoint any {A} (f : A -> bool) (l : list A) : bool :=
  match l with
  | [] => false
  | x :: l' => if f x then true else any f l'
  end.

(** [sep.join(parts)] *)
Fixpoint join (sep : str) (parts : list str) : str :=
  match parts with
  | [] => []
  | [p] => p
  | p :: ps => p ++ sep ++ join sep ps
  end.

(** [s * n] *)
Fixpoint str_repeat (s : str) (n : nat) : str :=
  match n with
  | O => []
  | S n' => s ++ str_repeat s n'
  end.

(** [s.split(sep)] for a one-character separator. *)
Fixpoint split_on (sep : char) (s : str) : list str :=
  match s with
  | [] => [[]]
  | c :: s' =>
      if N.eqb c sep then [] :: split_on sep s'
      else match split_on sep s' with
           | p :: ps => (c :: p) :: ps
           | [] => [[c]]
           end
  end.

(** Index clamping of a slice bound against a sequence of length [n]:
    negative bounds count from the end, and every bound is clipped to
    [0..n]. *)
Definition clamp_index (n i : Z) : Z :=
  if i <? 0 then Z.max (i + n) 0 else Z.min i n.

(** [l[start:stop]] with an optional [stop] ([None] reads to the end). *)
Definition py_slice {A} (l : list A) (start : Z) (stop : option Z) : list A :=
  let n := len l in
  let lo := clamp_index n start in
  let hi := match stop with
            | None => n
            | Some j => clamp_index n j
            end in
  take (Z.to_nat (hi - lo)) (drop (Z.to_nat lo) l).

(** [s[:limit]] for a non-negative [limit]. *)
Definition truncate (limit : Z) (s : str) : str := take (Z.to_nat limit) s.

(** [a or b] on strings: the empty string is falsy. *)
Definition str_or (a b : str) : str :=
  match a with
  | [] => b
  | _ :: _ => a
  end.

(** Code points for which [str.isspace] holds. *)
Definition isspace (c : char) : bool :=
  ((9 <=? c) && (c <=? 13) || (28 <=? c) && (c <=? 32) || (c =? 133)
   || (c =? 160) || (c =? 5760) || (8192 <=? c) && (c <=? 8202)
   || (c =? 8232) || (c =? 8233) || (c =? 8239) || (c =? 8287)
   || (c =? 12288))%N.

Fixpoint lstrip (s : str) : str :=
  match s with
  | [] => []
  | c :: s' => if isspace c then lstrip s' else s
  end.

(** [s.strip()] *)
Definition strip (s : str) : str :=
  reverse (lstrip (reverse (lstrip s))).

(** Decimal rendering of a non-negative integer, as an f-string does. *)
Definition str_of_nat (n : nat) : str :=
  lit (DecimalString.NilEmpty.string_of_uint (Nat.to_uint n)).

(** ** The environment of the tools *)

(** What a session may hold under a key of [st.session_state]. *)
Record VectorStoreIndex : Type := {
  (** [index.as_retriever(similarity_top_k=k).retrieve(query)], as the
      [text] of each returned node in the order the retriever gives. *)
  retrieve : nat -> str -> result (list str)
}.

Inductive session_value : Type :=
| VIndex (ix : VectorStoreIndex)
| VOther (repr : str).

(** The operating system, the [os.path] flavour in use, [str.lower] and the
    [re] module as the tools see them. *)
Class Env : Type := {
  os_name_nt : bool;
  os_sep : char;
  os_path_normpath : str -> str;
  os_path_isabs : str -> bool;
  os_path_join : str -> str -> str;
  os_path_isdir : str -> bool;
  os_listdir : str -> result (list str);
  (** [list(os.walk(top))]: one [(dirpath, dirnames, filenames)] per
      directory visited. *)
  os_walk : str -> list (str * list str * list str);
  (** [open(path, 'r', encoding='utf-8')] followed by [f.readlines()]. *)
  open_readlines : str -> result (list str);
  str_lower : str -> str;
  (** [re.search(pattern, s)]: [Return true] for a match object,
      [Return false] for [None], [Raise ReError] for a rejected pattern. *)
  re_search : str -> str -> result bool
}.

(** ** The tools *)

(** Lexicographic [<] on strings, by code point. *)
Fixpoint str_ltb (a b : str) : bool :=
  match a, b with
  | _, [] => false
  | [], _ :: _ => true
  | x :: a', y :: b' => (x <? y)%N || (x =? y)%N && str_ltb a' b'
  end.

(** [list.sort(key=...)]: a stable sort that compares keys with [<]. An
    element moves past another only when its key is strictly greater, so
    elements with equal keys keep their order. *)
Fixpoint insert_by (key : str -> str) (x : str) (l : list str) : list str :=
  match l with
  | [] => [x]
  | y :: l' =>
      if str_ltb (key y) (key x) then y :: insert_by key x l' else x :: l
  end.

Definition sort_by (key : str -> str) (l : list str) : list str :=
  foldr (insert_by key) [] l.

Definition character_limit : Z := 50000.
Definition search_results_limit : Z := 100.

(** The connector glyphs, U+2514 U+2500 U+2500 SPACE and
    U+251C U+2500 U+2500 SPACE. *)
Definition connector_last : str := [9492; 9472; 9472; 32]%N.
Definition connector_mid : str := [9500; 9472; 9472; 32]%N.

(** The line feed, and the blank-line separator of search results. *)
Definition nl : str := [10]%N.
Definition nlnl : str := [10; 10]%N.

Definition hidden (name : str) : bool := startswith (lit ".") name.
Definition nonempty {A} (s : list A) : bool :=
  match s with [] => false | _ :: _ => true end.

Section Tools.
Context {E : Env}.

(** *** [list_directory_contents] *)

(** The root line and the remaining segments of a normalised path. *)
Definition root_and_hierarchy (path : str) : str * list str :=
  let parts := split_on os_sep path in
  if os_path_isabs path then
    if os_name_nt then (hd [] parts ++ [os_sep], tl parts)
    else ([os_sep], tl parts)
  else
    (if nonempty (hd [] parts) then hd [] parts ++ [os_sep] else lit ".",
     tl parts).

(** One line per non-empty ancestor segment, indented by its position. *)
Definition hierarchy_lines (hierarchy : list str) : list str :=
  concat (imap (fun depth folder =>
    if nonempty folder
    then [str_repeat (lit "    ") depth ++ connector_last ++ folder ++ [os_sep]]
    else []) hierarchy).

Definition base_indent (hierarchy : list str) : str :=
  str_repeat (lit "    ") (length (List.filter nonempty hierarchy)).

(** The line of entry [name], the [i]-th of [n] entries. *)
Definition entry_line (path indent : str) (n : Z) (i : nat) (name : str)
  : str :=
  let is_last := Z.of_nat i =? n - 1 in
  let connector := if is_last then connector_last else connector_mid in
  let full := os_path_join path name in
  let suffix := if os_path_isdir full then [os_sep] else [] in
  indent ++ connector ++ name ++ suffix.

(** The entries that are listed: not hidden, sorted by lower-cased name. *)
Definition visible_entries (listing : list str) : list str :=
  sort_by str_lower (List.filter (fun e => negb (hidden e)) listing).

Definition permission_denied_line (indent : str) : str :=
  indent ++ lit "    " ++ connector_last ++ lit "[permission denied]".

(** The lines above the entries: the root and the ancestor segments. *)
Definition ancestor_lines (path : str) : list str :=
  let '(root, hierarchy) := root_and_hierarchy path in
  root :: hierarchy_lines hierarchy.

Definition contents_indent (path : str) : str :=
  base_indent (snd (root_and_hierarchy path)).

(** The lines of the listed entries. *)
Definition entry_lines (path : str) (entries : list str) : list str :=
  imap (entry_line path (contents_indent path) (len entries)) entries.

Definition list_directory_contents (path : str) : result str :=
  let path := os_path_normpath path in
  let lines := ancestor_lines path in
  match os_listdir path with
  | Raise PermissionError =>
      Return (truncate character_limit
                (join nl (lines ++ [permission_denied_line (contents_indent path)])))
  | Raise e => Raise e
  | Return listing =>
      let entries := visible_entries listing in
      Return (truncate character_limit
                (join nl (lines ++ entry_lines path entries)))
  end.

(** *** [load_file_contents] *)

(** The stop bound [(line_end + 1) if line_end else None]: the
    conditional tests the truth value of [line_end], so both [None] and
    [0] give [None]. *)
Definition slice_stop (line_end : option Z) : option Z :=
  match line_end with
  | None => None
  | Some e => if e =? 0 then None else Some (e + 1)
  end.

(** The file is opened and read before the [try] block starts, so an
    exception of [open] or [readlines] leaves the function. Inside the
    [try], joining and slicing strings raises nothing, and the handler
    that builds ["Error reading file: ..."] is never entered. *)
Definition load_file_contents (path : str) (line_start : Z)
    (line_end : option Z) : result str :=
  lines ← open_readlines path;
  let contents := py_slice lines line_start (slice_stop line_end) in
  let formatted_results := truncate character_limit (concat contents) in
  Return (str_or formatted_results (lit "No text was returned.")).

(** *** [perform_string_search] *)

Definition boundary_pattern (query : str) : str :=
  lit "\b" ++ query ++ lit "\b".

(** The record of a hit on line [i] (0-based) of [file_path]. *)
Definition metadata (file_path : str) (i : nat) (line : str) : str :=
  join nl [ lit "file_path: " ++ file_path;
            lit "line_number: " ++ str_of_nat (i + 1);
            lit "line_content: " ++ strip line ].

(** The test of one line: the substring check, and only when it
    succeeds the search for the boundary-anchored pattern, into which
    the query is pasted as it is. *)
Definition line_matches (query line : str) : result bool :=
  if contains query line
  then re_search (boundary_pattern query) line
  else Return false.

(** The loop over the lines of one file, from index [i] on. An exception
    of [re.search] leaves the loop for the bare [except], which drops the
    rest of the file and keeps the hits appended so far. *)
Fixpoint scan_lines (query file_path : str) (i : nat) (lines : list str)
  : list str :=
  match lines with
  | [] => []
  | line :: rest =>
      match line_matches query line with
      | Return true =>
          metadata file_path i line :: scan_lines query file_path (S i) rest
      | Return false => scan_lines query file_path (S i) rest
      | Raise _ => []
      end
  end.

(** The hits of one file; a file that cannot be opened or decoded
    contributes none. *)
Definition scan_file (query file_path : str) : list str :=
  match open_readlines file_path with
  | Return lines => scan_lines query file_path 0 lines
  | Raise _ => []
  end.

(** The hits of the files of one visited directory. *)
Definition scan_directory (query : str)
    (visit : str * list str * list str) : list str :=
  let '(root, _, files) := visit in
  concat (List.map (fun file =>
    if negb (hidden file) then scan_file query (os_path_join root file)
    else []) files).

(** [search_results] at the end of the walk. *)
Definition search_results (query path : str) : list str :=
  concat (List.map (scan_directory query) (os_walk path)).

(** [search_results[:search_results_limit]] *)
Definition reported_hits (query path : str) : list str :=
  take (Z.to_nat search_results_limit) (search_results query path).

Definition perform_string_search (query path : str) : result str :=
  let formatted_results := join nlnl (reported_hits query path) in
  Return (str_or formatted_results
            (lit "No exact matches found for query: " ++ query)).

(** *** [perform_semantic_search] *)

(** [st.session_state.index]: reading a key that was never set raises
    [AttributeError], and so does calling [as_retriever] on a value that
    is not an index. *)
Definition perform_semantic_search (session_state : gmap string session_value)
    (query : str) : result str :=
  match session_state !! "index"%string with
  | None => Raise AttributeError
  | Some (VOther _) => Raise AttributeError
  | Some (VIndex index) =>
      response ← retrieve index 5 query;
      Return (join nlnl response)
  end.
End Tools.

(** ** A model of [re] on the patterns the search tool can build

    The fragment covers literal characters, [.], the word boundary [\b],
    escaped punctuation and the greedy quantifiers [*], [+] and [?] on a
    one-character atom. Whether a pattern matches somewhere does not depend
    on the order in which a backtracking engine tries its choices, so the
    model enumerates the choices. *)
Module Re.

Inductive atom : Type :=
| Lit (c : char)
| AnyChar
| WordBoundary.

Inductive quant : Type := Once | Star | Plus | Opt.

Definition regex : Type := list (atom * quant).

Inductive token : Type :=
| TAtom (a : atom)
| TQuant (q : quant)
| TBadEscape
| TOther.

Inductive parsed : Type :=
| Parsed (r : regex)
| Malformed       (* [re.error] *)
| Unsupported.    (* syntax beyond the fragment *)

Definition is_ascii_alnum (c : char) : bool :=
  ((48 <=? c) && (c <=? 57) || (65 <=? c) && (c <=? 90)
   || (97 <=? c) && (c <=? 122))%N.

(** The characters with a meaning of their own in a pattern:
    [. ^ $ * + ? { } [ ] \ | ( )]. *)
Definition special (c : char) : bool :=
  existsb (N.eqb c) (lit ".^$*+?{}[]\|()").

Fixpoint tokenize (p : str) : list token :=
  match p with
  | [] => []
  | c :: p1 =>
      if (c =? 92)%N then
        match p1 with
        | [] => [TBadEscape]
        | d :: p2 =>
            (if (d =? 98)%N then TAtom WordBoundary
             else if is_ascii_alnum d then TOther
             else TAtom (Lit d)) :: tokenize p2
        end
      else if (c =? 46)%N then TAtom AnyChar :: tokenize p1
      else if (c =? 42)%N then TQuant Star :: tokenize p1
      else if (c =? 43)%N then TQuant Plus :: tokenize p1
      else if (c =? 63)%N then TQuant Opt :: tokenize p1
      else if special c then TOther :: tokenize p1
      else TAtom (Lit c) :: tokenize p1
  end.

Definition cons_item (a : atom) (q : quant) (rest : parsed) : parsed :=
  match a, q, rest with
  | WordBoundary, (Star | Plus | Opt), _ => Malformed (* nothing to repeat *)
  | _, _, Parsed r => Parsed ((a, q) :: r)
  | _, _, _ => rest
  end.

Fixpoint build (ts : list token) : parsed :=
  match ts with
  | [] => Parsed []
  | TAtom a :: rest =>
      match rest with
      | TQuant q :: rest' =>
          match rest' with
          | TQuant _ :: _ => Unsupported (* lazy, possessive, or an error *)
          | _ => cons_item a q (build rest')
          end
      | _ => cons_item a Once (build rest)
      end
  | TQuant _ :: _ => Malformed (* nothing to repeat *)
  | TBadEscape :: _ => Malformed (* bad escape (end of pattern) *)
  | TOther :: _ => Unsupported
  end.

Definition parse (p : str) : parsed := build (tokenize p).

(** The tokens of a run of literal characters. *)
Definition lit_tokens (query : str) : list token :=
  List.map (fun c => TAtom (Lit c)) query.

(** [re.escape] puts a backslash before each of
    [( ) [ ] { } ? * + - | ^ $ \ . & ~ #], the space and the
    characters 9 to 13. *)
Definition escaped (c : char) : bool :=
  existsb (N.eqb c) (lit "()[]{}?*+-|^$\.&~# ")
  || ((9 <=? c) && (c <=? 13))%N.

Definition escape (s : str) : str :=
  concat (List.map (fun c => if escaped c then [92%N; c] else [c]) s).

Section Engine.
(** [\w] on one character: [c.isalnum() or c == '_']. *)
Variable is_word : char -> bool.

Definition word_at (s : str) (i : nat) : bool :=
  match s !! i with
  | Some c => is_word c
  | None => false
  end.

(** [\b] at position [i]: exactly one of the characters before and
    after the position is a word character. *)
Definition boundary (s : str) (i : nat) : bool :=
  xorb (match i with O => false | S j => word_at s j end) (word_at s i).

Definition atom_char (a : atom) (c : char) : bool :=
  match a with
  | Lit d => (c =? d)%N
  | AnyChar => negb (c =? 10)%N
  | WordBoundary => false
  end.

(** How many leading characters of [s] the atom accepts in a row. *)
Fixpoint run (a : atom) (s : str) : nat :=
  match s with
  | [] => O
  | c :: s' => if atom_char a c then S (run a s') else O
  end.

(** Whether the pattern matches a run of [s] that starts at [i]. *)
Fixpoint match_from (r : regex) (s : str) (i : nat) : bool :=
  match r with
  | [] => true
  | (WordBoundary, _) :: r' => boundary s i && match_from r' s i
  | (a, Once) :: r' =>
      match s !! i with
      | Some c => atom_char a c && match_from r' s (S i)
      | None => false
      end
  | (a, Star) :: r' =>
      any (fun k => match_from r' s (i + k))
              (seq 0 (S (run a (drop i s))))
  | (a, Plus) :: r' =>
      any (fun k => match_from r' s (i + k))
              (seq 1 (run a (drop i s)))
  | (a, Opt) :: r' =>
      any (fun k => match_from r' s (i + k))
              (seq 0 (S (Nat.min 1 (run a (drop i s)))))
  end.

(** [re.search]: a match from some start position, the end included. *)
Definition search_regex (r : regex) (s : str) : bool :=
  any (match_from r s) (seq 0 (S (length s))).

(** [re.search(pattern, s)] where the pattern is in the fragment. *)
Definition search (pattern s : str) : option (result bool) :=
  match parse pattern with
  | Parsed r => Some (Return (search_regex r s))
  | Malformed => Some (Raise ReError)
  | Unsupported => None
  end.

End Engine.
End Re.

(** ** A POSIX environment over a directory tree *)
Module Posix.

Definition sep : char := 47%N.

(** [posixpath.isabs] *)
Definition isabs (p : str) : bool := startswith [sep] p.

Definition endswith_sep (p : str) : bool :=
  match last p with
  | Some c => (c =? sep)%N
  | None => false
  end.

(** [posixpath.join(a, b)] *)
Definition path_join (a b : str) : str :=
  if startswith [sep] b then b
  else if negb (nonempty a) || endswith_sep a then a ++ b
  else a ++ [sep] ++ b.

(** One round of the loop of [posixpath.normpath] over the components. *)
Definition norm_step (initial_slashes : nat) (new_comps : list str)
    (comp : str) : list str :=
  if str_eqb comp [] || str_eqb comp (lit ".") then new_comps
  else if negb (str_eqb comp (lit ".."))
          || (Nat.eqb initial_slashes 0 && negb (nonempty new_comps))
          || (nonempty new_comps
              && bool_decide (last new_comps = Some (lit "..")))
       then new_comps ++ [comp]
  else removelast new_comps.

(** [posixpath.normpath] *)
Definition normpath (path : str) : str :=
  if negb (nonempty path) then lit "." else
  let initial_slashes :=
    if startswith [sep] path then
      if startswith [sep; sep] path && negb (startswith [sep; sep; sep] path)
      then 2%nat else 1%nat
    else 0%nat in
  let comps := fold_left (norm_step initial_slashes) (split_on sep path) [] in
  str_or (str_repeat [sep] initial_slashes ++ join [sep] comps) (lit ".").

(** A directory tree. A file holds the text that the UTF-8 text layer
    delivers, or the exception that opening or decoding it raises; a
    directory may refuse to be listed. *)
#[warnings="-register-all"]
Inductive node : Type :=
| File (data : result str)
| Dir (listable : bool) (entries : list (str * node)).

Definition is_dir (n : node) : bool :=
  match n with Dir _ _ => true | File _ => false end.

(** [f.readlines()]: the text cut after every line feed. *)
Fixpoint readlines (s : str) : list str :=
  match s with
  | [] => []
  | c :: s' =>
      if (c =? 10)%N then [c] :: readlines s'
      else match readlines s' with
           | l :: ls => (c :: l) :: ls
           | [] => [[c]]
           end
  end.

Fixpoint find_entry (name : str) (entries : list (str * node))
  : option node :=
  match entries with
  | [] => None
  | (n, child) :: rest =>
      if str_eqb n name then Some child else find_entry name rest
  end.

Fixpoint lookup_path (n : node) (comps : list str) : result node :=
  match comps with
  | [] => Return n
  | c :: cs =>
      match n with
      | File _ => Raise NotADirectoryError
      | Dir _ entries =>
          match find_entry c entries with
          | Some child => lookup_path child cs
          | None => Raise FileNotFoundError
          end
      end
  end.

(** The components that a path names from the root, which is also the
    working directory of the model. *)
Definition components (path : str) : list str :=
  fold_left (fun acc comp =>
    if str_eqb comp [] || str_eqb comp (lit ".") then acc
    else if str_eqb comp (lit "..") then removelast acc
    else acc ++ [comp]) (split_on sep path) [].

Definition resolve (fs : node) (path : str) : result node :=
  lookup_path fs (components path).

Definition names_where (p : node -> bool) (entries : list (str * node))
  : list str :=
  List.map fst (List.filter (fun e => p (snd e)) entries).

(** [os.walk(top)] from a node: top-down, every subdirectory entered
    whatever its name, directories that cannot be listed skipped. *)
Fixpoint walk (top : str) (n : node) : list (str * list str * list str) :=
  match n with
  | File _ => []
  | Dir false _ => []
  | Dir true entries =>
      (top, names_where is_dir entries,
            names_where (fun c => negb (is_dir c)) entries)
      :: (fix walk_entries (es : list (str * node)) :=
            match es with
            | [] => []
            | (name, child) :: es' =>
                walk (path_join top name) child ++ walk_entries es'
            end) entries
  end.

(** [str.lower] on the ASCII range. *)
Definition ascii_lower (s : str) : str :=
  List.map (fun c => if ((65 <=? c) && (c <=? 90))%N then (c + 32)%N else c) s.

(** [c.isalnum() or c == '_'] on the ASCII range. *)
Definition ascii_word (c : char) : bool :=
  Re.is_ascii_alnum c || (c =? 95)%N.

(** The environment that a directory tree gives. A pattern outside the
    fragment of [Re] is reported as an exception of its own. *)
Definition env (fs : node) : Env := {|
  os_name_nt := false;
  os_sep := sep;
  os_path_normpath := normpath;
  os_path_isabs := isabs;
  os_path_join := path_join;
  os_path_isdir := fun p =>
    match resolve fs p with
    | Return n => is_dir n
    | Raise _ => false
    end;
  os_listdir := fun p =>
    match resolve fs p with
    | Return (Dir true entries) => Return (List.map fst entries)
    | Return (Dir false _) => Raise PermissionError
    | Return (File _) => Raise NotADirectoryError
    | Raise e => Raise e
    end;
  os_walk := fun top =>
    match resolve fs top with
    | Return n => walk top n
    | Raise _ => []
    end;
  open_readlines := fun p =>
    match resolve fs p with
    | Return (File (Return text)) => Return (readlines text)
    | Return (File (Raise e)) => Raise e
    | Return (Dir _ _) => Raise IsADirectoryError
    | Raise e => Raise e
    end;
  str_lower := ascii_lower;
  re_search := fun pattern s =>
    match Re.search ascii_word pattern s with
    | Some r => r
    | None => Raise (OtherError (lit "pattern outside the modelled fragment"))
    end
|}.
End Posix.


(** ** Reference notions of the specification *)

(** Lines [first] to [last] of a file, both included. *)
Definition lines_between (lines : list str) (first last : nat) : list str :=
  take (S last - first) (drop first lines).

(** Boundary-matching a line directly against a literal query: the query
    occurs at some position with a word boundary right before it and right
    after it. *)
Definition literal_boundary_match (is_word : char -> bool)
    (query line : str) : bool :=
  any (fun i =>
             Re.boundary is_word line i
             && startswith query (drop i line)
             && Re.boundary is_word line (i + length query))
          (seq 0 (S (length line))).

(** A query without pattern metacharacters. *)
Definition plain_query (query : str) : Prop :=
  Forall (fun c => Re.special c = false) query.

(** The pattern of a literal query between two word boundaries. *)
Definition literal_regex (query : str) : Re.regex :=
  (Re.WordBoundary, Re.Once)
  :: List.map (fun c => (Re.Lit c, Re.Once)) query
  ++ [(Re.WordBoundary, Re.Once)].

(** The [re.search] of an environment follows the model wherever the
    model has an answer. *)
Definition follows_model (E : Env) (is_word : char -> bool) : Prop :=
  forall pattern s r,
    Re.search is_word pattern s = Some r -> re_search pattern s = r.

(** A tool result respects the character cap when every text it returns
    has at most [character_limit] characters. *)
Definition capped (m : result str) : Prop :=
  match m with
  | Return text => len text <= character_limit
  | Raise _ => True
  end.

(** The sentinel of [load_file_contents] for an empty selection. *)
Definition no_text : str := lit "No text was returned.".

(** [key_le key a b]: [a] may stand before [b] in a list sorted by [key]. *)
Definition key_le (key : str -> str) (a b : str) : Prop :=
  str_ltb (key b) (key a) = false.

(** ** Scenarios *)
Module Scenario.
Import Posix.

Definition text_of (lines : list str) : str :=
  concat (List.map (fun l => l ++ nl) lines).

(** Directory [a] with the ten-line file [b.py] and the hidden [.env]. *)
Definition b_py : str :=
  text_of (List.map (fun n => lit "line " ++ str_of_nat n) (seq 0 10)).

Definition repo : node :=
  Dir true [ (lit "a", Dir true [ (lit ".env", File (Return (lit "KEY=1" ++ nl)));
                                  (lit "b.py", File (Return b_py)) ]) ].

(** A repository with a [.git] directory next to its sources. *)
Definition repo_with_git : node :=
  Dir true [ (lit ".git", Dir true
                [ (lit "config",
                   File (Return (text_of [lit "[core]"; lit "  bare = false"]))) ]);
             (lit ".env", File (Return (text_of [lit "bare = true"])));
             (lit "main.py", File (Return (text_of [lit "print(1)"]))) ].

(** A two-line file, a file that is not UTF-8, and a locked directory. *)
Definition small : node :=
  Dir true [ (lit "notes.txt", File (Return (text_of [lit "a"; lit "b"])));
             (lit "blob.bin", File (Raise UnicodeDecodeError));
             (lit "locked", Dir false [ (lit "x", File (Return [])) ]);
             (lit "sum.txt", File (Return (text_of [lit "a+b"]))) ].

(** A file with one line of more than 50,000 characters. *)
Definition long_line : str :=
  lit "x " ++ str_repeat (lit "a") (Z.to_nat character_limit).

Definition minified : node :=
  Dir true [ (lit "app.min.js", File (Return (long_line ++ nl))) ].

(** A file with 150 lines that all match the query [x]. *)
Definition many : node :=
  Dir true [ (lit "log.txt", File (Return (text_of (replicate 150 (lit "x"))))) ].

(** A session in which no index was built, and one with an index whose
    retriever finds nothing. *)
Definition no_index : gmap string session_value :=
  {[ "ready"%string := VOther (lit "True") ]}.

Definition empty_index : gmap string session_value :=
  {[ "index"%string := VIndex {| retrieve := fun _ _ => Return [] |} ]}.

(** A session whose index holds one chunk of more than 50,000 characters. *)
Definition long_index : gmap string session_value :=
  {[ "index"%string := VIndex {| retrieve := fun _ _ => Return [long_line] |} ]}.
End Scenario.

(** [enumerate(l)] counted from [i]. *)
Fixpoint numbered {A} (i : nat) (l : list A) : list (nat * A) :=
  match l with
  | [] => []
  | x :: l' => (i, x) :: numbered (S i) l'
  end.

Definition no_matches (query : str) : str :=
  lit "No exact matches found for query: " ++ query.

(** The line passes both tests of the search. *)
Definition accepts {E : Env} (query line : str) : bool :=
  match line_matches query line with
  | Return true => true
  | _ => false
  end.

(** The hits of the lines of a file when no line makes [re.search] raise:
    one record for each accepted line, in the order of the lines. *)
Definition hits_of_lines {E : Env} (query file_path : str) (lines : list str)
  : list str :=
  List.map (fun p => metadata file_path (fst p) (snd p))
    (List.filter (fun p => accepts query (snd p)) (numbered 0 lines)).

(** ** [create_index.py] *)
Module CreateIndex.
Section RepositoryParser.
(** The llama_index and faiss calls of the class, as they are used:
    [SimpleDirectoryReader(path, recursive=r).load_data()],
    the storage context over [faiss.IndexFlatL2(dimension)],
    [SentenceSplitter(chunk_size, chunk_overlap).get_nodes_from_documents],
    [OpenAIEmbedding(model=m)] and [VectorStoreIndex(nodes, ...)]. *)
Context {Document Node Storage Embedding : Type}.
Variable load_data : str -> bool -> result (list Document).
Variable storage_context : Z -> result Storage.
Variable get_nodes_from_documents :
  Z -> Z -> list Document -> result (list Node).
Variable openai_embedding : str -> result Embedding.
Variable vector_store_index :
  list Node -> Storage -> Embedding -> result VectorStoreIndex.

(** The attributes of a [RepositoryParser]; [_nodes] and [_index] exist
    only once they were assigned. *)
Record RepositoryParser : Type := {
  _path : str;
  _documents : list Document;
  _storage_context : Storage;
  _nodes : option (list Node);
  _index : option VectorStoreIndex
}.

(** [RepositoryParser(repository_path, dimension, recursive)] *)
Definition RepositoryParser_init (repository_path : str) (dimension : Z)
    (recursive : bool) : result RepositoryParser :=
  documents ← load_data repository_path recursive;
  storage ← storage_context dimension;
  Return {| _path := repository_path; _documents := documents;
            _storage_context := storage; _nodes := None; _index := None |}.

(** [self.split_documents(chunk_size, chunk_overlap)] *)
Definition split_documents (self : RepositoryParser)
    (chunk_size chunk_overlap : Z) : result RepositoryParser :=
  nodes ← get_nodes_from_documents chunk_size chunk_overlap (_documents self);
  Return {| _path := _path self; _documents := _documents self;
            _storage_context := _storage_context self;
            _nodes := Some nodes; _index := _index self |}.

(** [self.index_documents(model)]: the embedding model is made first,
    then [self._nodes] is read. *)
Definition index_documents (self : RepositoryParser) (model : str)
  : result (RepositoryParser * VectorStoreIndex) :=
  embed_model ← openai_embedding model;
  match _nodes self with
  | None => Raise AttributeError
  | Some nodes =>
      index ← vector_store_index nodes (_storage_context self) embed_model;
      Return ({| _path := _path self; _documents := _documents self;
                 _storage_context := _storage_context self;
                 _nodes := _nodes self; _index := Some index |}, index)
  end.

End RepositoryParser.
End CreateIndex.

(** ** [main.py]: the start of a session *)
Module App.

(** What the sidebar shows after the button was handled. *)
Inductive notice : Type :=
| Warning (msg : str)
| Success (msg : str).

Definition AGENT_MODELS : list (str * str) :=
  [ (lit "gpt-4.1-mini", lit "gpt-4.1-mini");
    (lit "gpt-o4-mini", lit "o4-mini");
    (lit "gpt-4.1", lit "gpt-4.1") ].

Fixpoint dict_get (key : str) (d : list (str * str)) : option str :=
  match d with
  | [] => None
  | (k, v) :: d' => if str_eqb k key then Some v else dict_get key d'
  end.

(** The truth value of a session value: a string is falsy when empty. *)
Definition truthy (v : session_value) : bool :=
  match v with
  | VOther s => nonempty s
  | VIndex _ => true
  end.

(** The session state after the handler, what it showed, and the
    exception that ended it, if any. *)
Record outcome : Type := {
  state : gmap string session_value;
  notices : list notice;
  raised : option exn
}.

Section Start.
Context {Zip : Type}.
(** [initialize_agent(config_path, model_id)], as the description of the
    agent it returns, and [index_repository(zip_file)]. *)
Variable initialize_agent : str -> str -> result str.
Variable index_repository : Zip -> result VectorStoreIndex.

(** The block under [if start:] of the sidebar. *)
Definition start_session (session_state : gmap string session_value)
    (uploaded : option Zip) (model_choice : str) (do_index : bool) : outcome :=
  match session_state !! "openai_key"%string with
  | None => {| state := session_state; notices := [];
               raised := Some AttributeError |}
  | Some key =>
      if negb (truthy key) then
        {| state := session_state;
           notices := [Warning (lit "Please enter your OpenAI key.")];
           raised := None |}
      else
        match uploaded with
        | None =>
            {| state := session_state;
               notices := [Warning (lit "Please upload a ZIP file.")];
               raised := None |}
        | Some zip_file =>
            match dict_get model_choice AGENT_MODELS with
            | None => {| state := session_state; notices := [];
                         raised := Some (OtherError (lit "KeyError")) |}
            | Some model_id =>
                match initialize_agent (lit "agent.yaml") model_id with
                | Raise e => {| state := session_state; notices := [];
                                raised := Some e |}
                | Return agent =>
                    let st1 := <["github_agent"%string := VOther agent]>
                                 session_state in
                    if do_index then
                      match index_repository zip_file with
                      | Raise e => {| state := st1; notices := [];
                                      raised := Some e |}
                      | Return index =>
                          {| state := <["ready"%string := VOther (lit "True")]>
                                        (<["index"%string := VIndex index]> st1);
                             notices := [Success (lit "Repository indexed!")];
                             raised := None |}
                      end
                    else
                      {| state := <["ready"%string := VOther (lit "True")]> st1;
                         notices := []; raised := None |}
                end
            end
        end
  end.
End Start.
End App.

(** ** Further scenarios *)
Module Cases.
Import Posix.

(** A directory with nothing but hidden entries, and names that differ
    in case only. *)
Definition mixed : node :=
  Dir true [ (lit "secrets", Dir true [ (lit ".env", File (Return [])) ]);
             (lit "docs", Dir true [ (lit "b.md", File (Return []));
                                     (lit "B.md", File (Return []));
                                     (lit "a.md", File (Return [])) ]);
             (lit "src", Dir true
                [ (lit "util.py",
                   File (Return (Scenario.text_of
                                   [lit "import os"; lit "# os path"; lit "cost = 1"]))) ]) ].

(** A session right after the key was typed, before any start. *)
Definition fresh_session : gmap string session_value :=
  {[ "openai_key"%string := VOther (lit "sk-1") ]}.

Definition one_chunk_index : VectorStoreIndex :=
  {| retrieve := fun _ _ => Return [lit "chunk"] |}.
End Cases.

(** * Properties *)

(** ** Sequences *)

Lemma len_nonneg {A} (l : list A) : 0 <= len l.
Proof. unfold len. lia. Qed.

Lemma len_truncate limit s : 0 <= limit -> len (truncate limit s) <= limit.
Proof.
  intros Hl. unfold len, truncate. rewrite length_take. lia.
Qed.

Lemma capped_truncate s : capped (Return (truncate character_limit s)).
Proof. simpl. apply len_truncate. unfold character_limit. lia. Qed.

Lemma readlines_concat text : concat (Posix.readlines text) = text.
Proof.
  induction text as [|c text IH]; [reflexivity|].
  simpl. destruct (c =? 10)%N.
  - simpl. now rewrite IH.
  - destruct (Posix.readlines text) as [|l ls] eqn:Hr; simpl in *.
    + now rewrite <- IH.
    + now rewrite <- IH.
Qed.

(** A slice with bounds [0 <= first <= last] is the run of elements
    [first..last]. *)
Lemma py_slice_between {A} (l : list A) (first last : Z) :
  0 <= first <= last ->
  py_slice l first (Some (last + 1))
  = take (S (Z.to_nat last) - Z.to_nat first) (drop (Z.to_nat first) l).
Proof.
  intros H. unfold py_slice, clamp_index.
  pose proof (len_nonneg l) as Hn. unfold len in *.
  destruct (Z.ltb_spec first 0); [lia|].
  destruct (Z.ltb_spec (last + 1) 0); [lia|].
  destruct (Z.le_ge_cases (Z.of_nat (length l)) first) as [Hge|Hlt].
  - rewrite !drop_ge by lia. now rewrite !take_nil.
  - rewrite (Z.min_l first) by lia.
    destruct (Z.le_ge_cases (last + 1) (Z.of_nat (length l))).
    + rewrite Z.min_l by lia. f_equal. lia.
    + rewrite Z.min_r by lia.
      rewrite !take_ge; [reflexivity| |]; rewrite length_drop; lia.
Qed.

(** A slice whose stop does not exceed its start is empty. *)
Lemma py_slice_empty {A} (l : list A) (start stop : Z) :
  0 <= stop <= start -> py_slice l start (Some stop) = [].
Proof.
  intros H. unfold py_slice, clamp_index.
  destruct (Z.ltb_spec start 0); [lia|].
  destruct (Z.ltb_spec stop 0); [lia|].
  replace (Z.to_nat _) with O by lia. reflexivity.
Qed.

(** A slice that starts at or after the end is empty. *)
Lemma py_slice_beyond {A} (l : list A) (start : Z) (stop : option Z) :
  len l <= start -> py_slice l start stop = [].
Proof.
  intros H. unfold py_slice, clamp_index.
  pose proof (len_nonneg l) as Hn. unfold len in *.
  destruct (Z.ltb_spec start 0); [lia|].
  rewrite drop_ge by lia. apply take_nil.
Qed.

Lemma py_slice_all {A} (l : list A) : py_slice l 0 None = l.
Proof.
  unfold py_slice, clamp_index. simpl.
  pose proof (len_nonneg l) as Hn. unfold len in *.
  rewrite Z.min_l by lia. simpl. rewrite drop_0.
  apply take_ge. lia.
Qed.

(** ** [load_file_contents] *)

Section LoadFileContents.
Context {E : Env}.

(** An exception of [open] or [readlines] leaves the function as it is. *)
Lemma load_file_contents_propagates path line_start line_end e :
  open_readlines path = Raise e ->
  load_file_contents path line_start line_end = Raise e.
Proof. intros H. unfold load_file_contents. now rewrite H. Qed.

(** Whatever is returned respects the cap. *)
Lemma load_file_contents_capped path line_start line_end :
  capped (load_file_contents path line_start line_end).
Proof.
  unfold load_file_contents.
  destruct (open_readlines path) as [lines|e]; simpl; [|exact I].
  destruct (truncate character_limit _) eqn:Ht; simpl.
  - vm_compute. discriminate.
  - rewrite <- Ht. apply len_truncate. unfold character_limit. lia.
Qed.

(** With [0 <= line_start <= line_end] and [line_end] not zero, the
    lines of the range are returned, joined and cut at the cap. *)
Lemma load_file_contents_range path lines line_start line_end :
  open_readlines path = Return lines ->
  0 <= line_start <= line_end -> line_end <> 0 ->
  load_file_contents path line_start (Some line_end)
  = Return (str_or (truncate character_limit
                      (concat (lines_between lines (Z.to_nat line_start)
                                             (Z.to_nat line_end))))
                   no_text).
Proof.
  intros Hopen Hrange Hnz. unfold load_file_contents. rewrite Hopen. simpl.
  destruct (Z.eqb_spec line_end 0); [contradiction|].
  now rewrite py_slice_between.
Qed.

(** Without a [line_end], everything from line 0 on is returned. *)
Lemma load_file_contents_whole path lines :
  open_readlines path = Return lines ->
  load_file_contents path 0 None
  = Return (str_or (truncate character_limit (concat lines)) no_text).
Proof.
  intros Hopen. unfold load_file_contents. rewrite Hopen. simpl.
  now rewrite py_slice_all.
Qed.

(** An empty range of a readable file gives the sentinel, as long as
    [line_end] is not zero. *)
Lemma load_file_contents_empty_range path lines line_start line_end :
  open_readlines path = Return lines ->
  0 < line_end < line_start \/ (len lines <= line_start /\ line_end <> 0) ->
  load_file_contents path line_start (Some line_end) = Return no_text.
Proof.
  intros Hopen Hcase. unfold load_file_contents. rewrite Hopen. simpl.
  destruct Hcase as [Hlt|[Hbeyond Hnz]].
  - destruct (Z.eqb_spec line_end 0); [lia|].
    rewrite py_slice_empty by lia. reflexivity.
  - now rewrite py_slice_beyond.
Qed.

(** [load_file_contents(F, 5, 2)] on any readable file. *)
Lemma load_file_contents_5_2 path lines :
  open_readlines path = Return lines ->
  load_file_contents path 5 (Some 2) = Return no_text.
Proof.
  intros Hopen. apply load_file_contents_empty_range with lines; [easy|lia].
Qed.

(** With [line_end = 0] the stop bound is dropped and the file is read
    from [line_start] to its end. *)
Lemma load_file_contents_line_end_0 path lines line_start :
  open_readlines path = Return lines ->
  load_file_contents path line_start (Some 0)
  = Return (str_or (truncate character_limit
                      (concat (py_slice lines line_start None)))
                   no_text).
Proof.
  intros Hopen. unfold load_file_contents. now rewrite Hopen.
Qed.
End LoadFileContents.

(** In a directory tree, reading a whole text file gives its text back,
    cut at the cap. *)
Lemma load_file_contents_whole_text fs path text :
  Posix.resolve fs path = Return (Posix.File (Return text)) ->
  load_file_contents (E := Posix.env fs) path 0 None
  = Return (str_or (truncate character_limit text) no_text).
Proof.
  intros Hfile.
  rewrite (load_file_contents_whole (E := Posix.env fs) path (Posix.readlines text)).
  - now rewrite readlines_concat.
  - simpl. now rewrite Hfile.
Qed.

(** C2 (defect of the code): a file that cannot be opened or decoded
    should give a descriptive error string. The file is opened outside the
    [try] block, so on a missing path and on a file that is not UTF-8
    [load_file_contents] raises the exception instead of returning a
    string. *)
Theorem load_file_contents_unreadable_raises :
  load_file_contents (E := Posix.env Scenario.small) (lit "absent.txt") 0 None
  = Raise FileNotFoundError
  /\ load_file_contents (E := Posix.env Scenario.small) (lit "blob.bin") 0 None
     = Raise UnicodeDecodeError.
Proof. split; reflexivity. Qed.

(** C3 (defect of the code): with [0 <= line_start <= line_end] the lines
    [line_start..line_end] should be returned, also for [line_end = 0]. On
    the two-line file [notes.txt], the range [0..0] is the first line, yet
    [load_file_contents] returns both lines: a [line_end] of zero is taken
    for an absent one. *)
Theorem load_file_contents_first_line_only_fails :
  open_readlines (Env := Posix.env Scenario.small) (lit "notes.txt")
  = Return [lit "a" ++ nl; lit "b" ++ nl]
  /\ concat (lines_between [lit "a" ++ nl; lit "b" ++ nl] 0 0) = lit "a" ++ nl
  /\ load_file_contents (E := Posix.env Scenario.small) (lit "notes.txt") 0 (Some 0)
     = Return (lit "a" ++ nl ++ lit "b" ++ nl).
Proof. repeat split; reflexivity. Qed.

(** C7 (defect of the code): a range with [line_end < line_start] should
    give the sentinel. On the two-line file [notes.txt] the call with
    [line_start = 1] and [line_end = 0] returns the second line instead,
    by the same zero test as in C3. *)
Theorem load_file_contents_end_before_start_fails :
  load_file_contents (E := Posix.env Scenario.small) (lit "notes.txt") 1 (Some 0)
  = Return (lit "b" ++ nl)
  /\ load_file_contents (E := Posix.env Scenario.small) (lit "notes.txt") 5 (Some 2)
     = Return no_text.
Proof. split; reflexivity. Qed.

(** ** The character cap *)

Lemma list_directory_contents_capped {E : Env} path :
  capped (list_directory_contents path).
Proof.
  unfold list_directory_contents.
  destruct (os_listdir _) as [listing|[]]; try exact I; apply capped_truncate.
Qed.

(** C1 (as amended): [list_directory_contents] and [load_file_contents]
    return at most 50,000 characters whenever they return a text. *)
Theorem listing_and_file_tools_capped (E : Env) path line_start line_end :
  capped (list_directory_contents path)
  /\ capped (load_file_contents path line_start line_end).
Proof.
  split.
  - apply list_directory_contents_capped.
  - apply load_file_contents_capped.
Qed.

(** C1 (as stated) fails: searching the one-file repository [minified]
    for [x] returns the whole matching line, more than 50,000 characters,
    and a semantic search returns a retrieved chunk of that length whole. *)
Lemma search_tools_exceed_cap :
  ~ capped (perform_string_search (E := Posix.env Scenario.minified)
              (lit "x") (lit "."))
  /\ ~ capped (perform_semantic_search Scenario.long_index (lit "x")).
Proof. split; vm_compute; intros H; apply H; reflexivity. Qed.

(** ** [perform_string_search]: the hit limit *)

Lemma reported_hits_prefix {E : Env} query path :
  reported_hits query path `prefix_of` search_results query path.
Proof. unfold reported_hits. apply prefix_take. Qed.

(** C5: whatever the query and the root, at most 100 hits are reported,
    they are the first hits of the walk, and the returned text is made of
    them alone. *)
Theorem perform_string_search_hit_limit (E : Env) query path :
  len (reported_hits query path) <= 100
  /\ reported_hits query path `prefix_of` search_results query path
  /\ perform_string_search query path
     = Return (str_or (join nlnl (reported_hits query path))
                 (lit "No exact matches found for query: " ++ query)).
Proof.
  split; [|split].
  - unfold len, reported_hits, search_results_limit.
    rewrite length_take. lia.
  - apply reported_hits_prefix.
  - reflexivity.
Qed.

(** A file with 150 matching lines gives 150 hits, 100 of them reported. *)
Example perform_string_search_many_lines :
  length (search_results (E := Posix.env Scenario.many) (lit "x") (lit ".")) = 150%nat
  /\ length (reported_hits (E := Posix.env Scenario.many) (lit "x") (lit ".")) = 100%nat.
Proof. split; vm_compute; reflexivity. Qed.

(** ** [perform_semantic_search]: no index *)

(** C6: when the session holds no [index], the call raises
    [AttributeError] for every query. It returns no text at all, unlike a
    search of an index that finds nothing, which returns the empty text. *)
Theorem perform_semantic_search_without_index
    (session_state : gmap string session_value) query :
  session_state !! "index"%string = None ->
  perform_semantic_search session_state query = Raise AttributeError
  /\ (forall text, perform_semantic_search session_state query <> Return text)
  /\ perform_semantic_search Scenario.empty_index query = Return [].
Proof.
  intros Hnone. unfold perform_semantic_search at 1 2. rewrite Hnone.
  split; [reflexivity|]. split; [discriminate|reflexivity].
Qed.

Lemma perform_semantic_search_without_index_witness :
  Scenario.no_index !! "index"%string = None
  /\ perform_semantic_search Scenario.no_index (lit "tokens") = Raise AttributeError.
Proof.
  split; [reflexivity|].
  apply (perform_semantic_search_without_index Scenario.no_index (lit "tokens")).
  reflexivity.
Defined.

(** ** [list_directory_contents]: errors of the listing *)

Lemma join_snoc sep (parts : list str) last :
  parts <> [] -> join sep (parts ++ [last]) = join sep parts ++ sep ++ last.
Proof.
  induction parts as [|p ps IH]; [congruence|]. intros _.
  destruct ps as [|p' ps]; [reflexivity|].
  change (join sep ((p :: p' :: ps) ++ [last]))
    with (p ++ sep ++ join sep ((p' :: ps) ++ [last])).
  rewrite IH by discriminate.
  change (join sep (p :: p' :: ps)) with (p ++ sep ++ join sep (p' :: ps)).
  now rewrite <- !app_assoc.
Qed.

Lemma ancestor_lines_nonempty {E : Env} path : ancestor_lines path <> [].
Proof.
  unfold ancestor_lines. destruct (root_and_hierarchy path). discriminate.
Qed.

(** Every exception of [os.listdir] other than [PermissionError] leaves
    the function. *)
Lemma list_directory_contents_propagates {E : Env} path e :
  os_listdir (os_path_normpath path) = Raise e ->
  e <> PermissionError ->
  list_directory_contents path = Raise e.
Proof.
  intros H Hne. unfold list_directory_contents. rewrite H.
  destruct e; congruence.
Qed.

(** C8: when [os.listdir] raises [PermissionError], the tool returns the
    text of the ancestor lines followed by the permission-denied line, cut
    at the cap; when it raises [FileNotFoundError], the exception reaches
    the caller. *)
Theorem list_directory_contents_listing_errors (E : Env) path :
  (os_listdir (os_path_normpath path) = Raise PermissionError ->
   list_directory_contents path
   = Return (truncate character_limit
               (join nl (ancestor_lines (os_path_normpath path))
                ++ nl
                ++ permission_denied_line
                     (contents_indent (os_path_normpath path)))))
  /\ (os_listdir (os_path_normpath path) = Raise FileNotFoundError ->
      list_directory_contents path = Raise FileNotFoundError).
Proof.
  split; intros H.
  - unfold list_directory_contents. rewrite H.
    now rewrite join_snoc by apply ancestor_lines_nonempty.
  - now apply list_directory_contents_propagates.
Qed.

Lemma list_directory_contents_listing_errors_witness :
  os_listdir (Env := Posix.env Scenario.small)
    (os_path_normpath (Env := Posix.env Scenario.small) (lit "locked"))
  = Raise PermissionError
  /\ list_directory_contents (E := Posix.env Scenario.small) (lit "locked")
     = Return (lit "locked/" ++ nl ++ lit "    " ++ connector_last
               ++ lit "[permission denied]")
  /\ os_listdir (Env := Posix.env Scenario.small)
       (os_path_normpath (Env := Posix.env Scenario.small) (lit "absent"))
     = Raise FileNotFoundError
  /\ list_directory_contents (E := Posix.env Scenario.small) (lit "absent")
     = Raise FileNotFoundError.
Proof.
  split; [reflexivity|]. split.
  - rewrite (proj1 (list_directory_contents_listing_errors
                      (Posix.env Scenario.small) (lit "locked")));
      reflexivity.
  - split; [reflexivity|].
    apply (proj2 (list_directory_contents_listing_errors
                    (Posix.env Scenario.small) (lit "absent"))).
    reflexivity.
Defined.

(** ** [list_directory_contents]: the entries *)

Lemma str_ltb_asym a b : str_ltb a b = true -> str_ltb b a = false.
Proof.
  revert b. induction a as [|x a IH]; intros [|y b]; simpl; try easy.
  destruct (N.ltb_spec x y), (N.ltb_spec y x), (N.eqb_spec x y),
    (N.eqb_spec y x); simpl; try lia; try easy.
  apply IH.
Qed.

Lemma str_ltb_false_trans a b c :
  str_ltb b a = false -> str_ltb c b = false -> str_ltb c a = false.
Proof.
  revert b c. induction a as [|x a IH]; intros [|y b] [|z c]; simpl; try easy.
  destruct (N.ltb_spec y x), (N.ltb_spec z y), (N.ltb_spec z x),
    (N.eqb_spec y x), (N.eqb_spec z y), (N.eqb_spec z x);
    simpl; try lia; try easy.
  apply IH.
Qed.

Section SortBy.
Variable key : str -> str.

Lemma key_le_trans a b c : key_le key a b -> key_le key b c -> key_le key a c.
Proof. unfold key_le. intros Hab Hbc. eapply str_ltb_false_trans; eauto. Qed.

Lemma insert_by_perm x l : Permutation (insert_by key x l) (x :: l).
Proof.
  induction l as [|y l IH]; simpl; [reflexivity|].
  destruct (str_ltb (key y) (key x)); [|reflexivity].
  rewrite IH. apply perm_swap.
Qed.

Lemma sort_by_perm l : Permutation (sort_by key l) l.
Proof.
  induction l as [|x l IH]; simpl; [reflexivity|].
  rewrite insert_by_perm. now rewrite IH.
Qed.

Lemma insert_by_sorted x l :
  StronglySorted (key_le key) l -> StronglySorted (key_le key) (insert_by key x l).
Proof.
  induction 1 as [|y l Hsorted IH Hall]; simpl.
  - repeat constructor.
  - destruct (str_ltb (key y) (key x)) eqn:Hyx.
    + constructor; [exact IH|].
      rewrite insert_by_perm. constructor; [|exact Hall].
      now apply str_ltb_asym.
    + constructor; [now constructor|].
      constructor; [exact Hyx|].
      eapply Forall_impl; [exact Hall|].
      intros z Hz. now apply key_le_trans with y.
Qed.

Lemma sort_by_sorted l : StronglySorted (key_le key) (sort_by key l).
Proof.
  induction l as [|x l IH]; simpl; [constructor|].
  now apply insert_by_sorted.
Qed.

(** Entries whose keys are equal keep the order they had: sorting a list
    that is already in order leaves it as it is. *)
Lemma sort_by_sorted_id l : StronglySorted (key_le key) l -> sort_by key l = l.
Proof.
  induction 1 as [|x l Hsorted IH Hall]; simpl; [reflexivity|].
  rewrite IH. destruct l as [|y l]; [reflexivity|]. simpl.
  inversion Hall as [|? ? Hxy _]; subst. unfold key_le in Hxy.
  now rewrite Hxy.
Qed.
End SortBy.

Lemma visible_entries_perm {E : Env} listing :
  Permutation (visible_entries listing)
              (List.filter (fun e => negb (hidden e)) listing).
Proof. apply sort_by_perm. Qed.

(** A name is listed exactly when the directory has it and it does not
    start with a dot. *)
Lemma visible_entries_spec {E : Env} listing name :
  In name (visible_entries listing) <-> In name listing /\ hidden name = false.
Proof.
  rewrite (Permutation_in' (eq_refl name) (visible_entries_perm listing)).
  rewrite filter_In. now rewrite negb_true_iff.
Qed.

(** Each entry line carries the name of its entry between the connector
    and the directory suffix. *)
Lemma entry_lines_lookup {E : Env} path entries i name :
  entries !! i = Some name ->
  exists connector suffix,
    entry_lines path entries !! i
    = Some (contents_indent path ++ connector ++ name ++ suffix)
    /\ (connector = connector_last \/ connector = connector_mid)
    /\ (suffix = [os_sep] \/ suffix = []).
Proof.
  intros Hi. unfold entry_lines. rewrite list_lookup_imap, Hi. simpl.
  unfold entry_line. eexists _, _. split; [reflexivity|].
  split; [destruct (_ =? _); auto | destruct (os_path_isdir _); auto].
Qed.

Lemma entry_lines_length {E : Env} path entries :
  length (entry_lines path entries) = length entries.
Proof. unfold entry_lines. apply length_imap. Qed.

(** C9: for a directory that can be listed, the entries shown are a
    rearrangement of the names that do not start with a dot, in the order
    of their lower-cased names, one line each after the ancestor lines; in
    the scenario, the listing of [a] shows [b.py] and not [.env]. *)
Theorem list_directory_contents_entries (E : Env) path listing :
  os_listdir (os_path_normpath path) = Return listing ->
  let entries := visible_entries listing in
  Permutation entries (List.filter (fun e => negb (hidden e)) listing)
  /\ StronglySorted (key_le str_lower) entries
  /\ (forall name, In name entries <-> In name listing /\ hidden name = false)
  /\ (forall i name, entries !! i = Some name ->
      exists connector suffix,
        entry_lines (os_path_normpath path) entries !! i
        = Some (contents_indent (os_path_normpath path)
                ++ connector ++ name ++ suffix))
  /\ list_directory_contents path
     = Return (truncate character_limit
                 (join nl (ancestor_lines (os_path_normpath path)
                           ++ entry_lines (os_path_normpath path) entries)))
  /\ list_directory_contents (E := Posix.env Scenario.repo) (lit "a")
     = Return (lit "a/" ++ nl ++ connector_last ++ lit "b.py").
Proof.
  intros Hlist entries. split; [apply visible_entries_perm|].
  split; [apply sort_by_sorted|].
  split; [intros name; apply visible_entries_spec|].
  split.
  { intros i name Hi.
    destruct (entry_lines_lookup (os_path_normpath path) entries i name Hi)
      as (connector & suffix & Hline & _).
    now exists connector, suffix. }
  split; [|reflexivity].
  unfold list_directory_contents. now rewrite Hlist.
Qed.

Lemma list_directory_contents_entries_witness :
  os_listdir (Env := Posix.env Scenario.repo)
    (os_path_normpath (Env := Posix.env Scenario.repo) (lit "a"))
  = Return [lit ".env"; lit "b.py"]
  /\ visible_entries (E := Posix.env Scenario.repo) [lit ".env"; lit "b.py"]
     = [lit "b.py"]
  /\ StronglySorted (key_le Posix.ascii_lower)
       (visible_entries (E := Posix.env Scenario.repo) [lit ".env"; lit "b.py"]).
Proof.
  split; [reflexivity|]. split; [reflexivity|].
  apply (list_directory_contents_entries (Posix.env Scenario.repo) (lit "a")
           [lit ".env"; lit "b.py"]).
  reflexivity.
Defined.

(** ** [perform_string_search]: which files are searched *)

(** The hits of a file that is not hidden, in whatever directory the walk
    visits, are among the search results: the name of the directory plays
    no part. *)
Lemma search_results_of_visited {E : Env} query path root dirs files file hit :
  In (root, dirs, files) (os_walk path) ->
  In file files -> hidden file = false ->
  In hit (scan_file query (os_path_join root file)) ->
  In hit (search_results query path).
Proof.
  intros Hvisit Hfile Hshown Hhit. unfold search_results.
  apply in_concat. exists (scan_directory query (root, dirs, files)).
  split; [now apply in_map|].
  simpl. apply in_concat. eexists. split.
  - apply in_map_iff. exists file. split; [reflexivity|exact Hfile].
  - now rewrite Hshown.
Qed.

(** A hidden file contributes no hit. *)
Lemma scan_directory_skips_hidden {E : Env} query root dirs files :
  scan_directory query (root, dirs, files)
  = scan_directory query
      (root, dirs, List.filter (fun f => negb (hidden f)) files).
Proof.
  simpl. induction files as [|f files IH]; [reflexivity|].
  simpl. destruct (hidden f) eqn:Hf; simpl; rewrite ?Hf; simpl; [exact IH|].
  now rewrite IH.
Qed.

(** C10: the walk enters a directory whose name starts with a dot. In the
    repository with [.git/config] and a hidden [.env], a search for [bare]
    from the root reports the line of [.git/config] (and not the one of
    [.env]). *)
Theorem perform_string_search_enters_hidden_directories :
  In (lit "./.git", [], [lit "config"])
     (os_walk (Env := Posix.env Scenario.repo_with_git) (lit "."))
  /\ hidden (lit ".git") = true
  /\ perform_string_search (E := Posix.env Scenario.repo_with_git)
       (lit "bare") (lit ".")
     = Return (join nl [ lit "file_path: ./.git/config";
                         lit "line_number: 2";
                         lit "line_content: bare = false" ]).
Proof.
  split; [|split]; [|reflexivity|reflexivity].
  simpl. right. left. reflexivity.
Qed.

(** ** [perform_string_search]: the test of a line *)

Lemma any_ext {A} (f g : A -> bool) l :
  (forall x, f x = g x) -> any f l = any g l.
Proof.
  intros Hfg. induction l as [|x l IH]; simpl; [reflexivity|].
  now rewrite Hfg, IH.
Qed.

Lemma any_true {A} (f : A -> bool) l :
  any f l = true <-> exists x, In x l /\ f x = true.
Proof.
  induction l as [|x l IH]; simpl.
  - split; [discriminate|]. now intros (? & [] & _).
  - destruct (f x) eqn:Hx.
    + split; [|reflexivity]. intros _. exists x. auto.
    + rewrite IH. split.
      * intros (y & Hy & Hfy). exists y. auto.
      * intros (y & [->|Hy] & Hfy); [congruence|]. exists y. auto.
Qed.

Module ReFacts.
Import Re.

Lemma special_false c :
  special c = false ->
  (c =? 92)%N = false /\ (c =? 46)%N = false /\ (c =? 42)%N = false
  /\ (c =? 43)%N = false /\ (c =? 63)%N = false.
Proof.
  unfold special. cbn. rewrite !orb_false_iff. tauto.
Qed.

Lemma escaped_true c :
  escaped c = true -> (c =? 98)%N = false /\ is_ascii_alnum c = false.
Proof.
  unfold escaped, is_ascii_alnum. cbn.
  rewrite !orb_true_iff, !andb_true_iff, !N.eqb_eq, !N.leb_le.
  intros H. split.
  - apply N.eqb_neq. lia.
  - rewrite !orb_false_iff, !andb_false_iff, !N.leb_gt. lia.
Qed.

Lemma escaped_false c : escaped c = false -> special c = false.
Proof.
  unfold escaped, special. cbn.
  rewrite !orb_false_iff, !N.eqb_neq. tauto.
Qed.

Lemma tokenize_plain query rest :
  plain_query query -> tokenize (query ++ rest) = lit_tokens query ++ tokenize rest.
Proof.
  induction 1 as [|c query Hc _ IH]; [reflexivity|].
  destruct (special_false c Hc) as (H1 & H2 & H3 & H4 & H5).
  simpl. now rewrite H1, H2, H3, H4, H5, Hc, IH.
Qed.

Lemma tokenize_escape query rest :
  tokenize (escape query ++ rest) = lit_tokens query ++ tokenize rest.
Proof.
  induction query as [|c query IH]; [reflexivity|].
  unfold escape in *. simpl. destruct (escaped c) eqn:Hc.
  - destruct (escaped_true c Hc) as [Hb Halnum].
    simpl. now rewrite Hb, Halnum, IH.
  - pose proof (escaped_false c Hc) as Hs.
    destruct (special_false c Hs) as (H1 & H2 & H3 & H4 & H5).
    simpl. now rewrite H1, H2, H3, H4, H5, Hs, IH.
Qed.

Lemma build_atoms atoms :
  build (List.map TAtom atoms) = Parsed (List.map (fun a => (a, Once)) atoms).
Proof.
  induction atoms as [|a atoms IH]; [reflexivity|].
  destruct atoms as [|a' atoms]; [destruct a; reflexivity|].
  change (build (List.map TAtom (a :: a' :: atoms)))
    with (cons_item a Once (build (List.map TAtom (a' :: atoms)))).
  rewrite IH. destruct a; reflexivity.
Qed.
Lemma parse_literal_tokens query :
  build (TAtom WordBoundary :: lit_tokens query ++ [TAtom WordBoundary])
  = Parsed (literal_regex query).
Proof.
  pose proof (build_atoms (WordBoundary :: List.map Lit query ++ [WordBoundary]))
    as H.
  unfold lit_tokens, literal_regex.
  rewrite !map_cons, !map_app, !map_map in H. exact H.
Qed.

(** A query without metacharacters is parsed as the literal pattern. *)
Lemma parse_boundary_pattern_plain query :
  plain_query query -> parse (boundary_pattern query) = Parsed (literal_regex query).
Proof.
  intros Hplain. unfold parse, boundary_pattern.
  change (lit "\b" ++ query ++ lit "\b")
    with (92%N :: 98%N :: (query ++ [92%N; 98%N])).
  cbn [tokenize N.eqb Pos.eqb]. rewrite tokenize_plain by exact Hplain.
  apply parse_literal_tokens.
Qed.

(** An escaped query is parsed as the literal pattern, whatever it holds. *)
Lemma parse_boundary_pattern_escape query :
  parse (boundary_pattern (escape query)) = Parsed (literal_regex query).
Proof.
  unfold parse, boundary_pattern.
  change (lit "\b" ++ escape query ++ lit "\b")
    with (92%N :: 98%N :: (escape query ++ [92%N; 98%N])).
  cbn [tokenize N.eqb Pos.eqb]. rewrite tokenize_escape.
  apply parse_literal_tokens.
Qed.

Section Matching.
Variable is_word : char -> bool.

Lemma match_from_literals query r s i :
  match_from is_word (List.map (fun c => (Lit c, Once)) query ++ r) s i
  = startswith query (drop i s) && match_from is_word r s (i + length query).
Proof.
  revert i. induction query as [|c query IH]; intros i.
  - simpl. now rewrite Nat.add_0_r.
  - cbn [List.map app match_from length].
    destruct (s !! i) as [d|] eqn:Hi.
    + rewrite (drop_S _ _ _ Hi). cbn [startswith atom_char].
      rewrite IH, N.eqb_sym, Nat.add_succ_r. apply andb_assoc.
    + rewrite drop_ge by now apply lookup_ge_None. reflexivity.
Qed.

(** Searching the literal pattern is the direct boundary match. *)
Lemma search_literal_regex query s :
  search_regex is_word (literal_regex query) s
  = literal_boundary_match is_word query s.
Proof.
  unfold search_regex, literal_boundary_match, literal_regex.
  apply any_ext. intros i. cbn [match_from].
  rewrite match_from_literals. cbn [match_from].
  rewrite andb_true_r. apply andb_assoc.
Qed.

(** The model of [re.search] on an escaped query. *)
Lemma search_escaped query s :
  search is_word (boundary_pattern (escape query)) s
  = Some (Return (literal_boundary_match is_word query s)).
Proof.
  unfold search. rewrite parse_boundary_pattern_escape.
  now rewrite search_literal_regex.
Qed.

Lemma search_plain query s :
  plain_query query ->
  search is_word (boundary_pattern query) s
  = Some (Return (literal_boundary_match is_word query s)).
Proof.
  intros Hplain. unfold search. rewrite parse_boundary_pattern_plain by easy.
  now rewrite search_literal_regex.
Qed.
End Matching.
End ReFacts.

Lemma startswith_drop_contains query s i :
  startswith query (drop i s) = true -> contains query s = true.
Proof.
  revert s. induction i as [|i IH]; intros s H.
  - rewrite drop_0 in H. destruct s; simpl in *; now rewrite H.
  - destruct s as [|c s]; simpl in H.
    + simpl. now rewrite H.
    + simpl. destruct (startswith query (c :: s)); [reflexivity|].
      now apply IH.
Qed.

(** A line that the direct boundary match accepts holds the query as a
    substring, so the substring test rejects nothing by itself. *)
Lemma literal_boundary_match_contains is_word query line :
  literal_boundary_match is_word query line = true ->
  contains query line = true.
Proof.
  unfold literal_boundary_match. rewrite any_true.
  intros (i & _ & Hi). apply andb_prop in Hi as [Hi _].
  apply andb_prop in Hi as [_ Hi].
  now apply startswith_drop_contains with i.
Qed.

(** For a query without metacharacters, the two-stage test of the code is
    the direct boundary match of the literal query. *)
Lemma line_matches_plain_query {E : Env} is_word query line :
  follows_model E is_word -> plain_query query ->
  line_matches query line
  = Return (literal_boundary_match is_word query line).
Proof.
  intros Hmodel Hplain. unfold line_matches.
  destruct (contains query line) eqn:Hsub.
  - apply Hmodel. now apply ReFacts.search_plain.
  - destruct (literal_boundary_match is_word query line) eqn:Hm;
      [|reflexivity].
    apply literal_boundary_match_contains in Hm. congruence.
Qed.

Lemma posix_env_follows_model fs : follows_model (Posix.env fs) Posix.ascii_word.
Proof. intros pattern s r H. simpl. now rewrite H. Qed.

Lemma line_matches_plain_query_witness :
  plain_query (lit "bare")
  /\ follows_model (Posix.env Scenario.repo_with_git) Posix.ascii_word
  /\ line_matches (E := Posix.env Scenario.repo_with_git) (lit "bare")
       (lit "  bare = false" ++ nl)
     = Return true.
Proof.
  assert (Hplain : plain_query (lit "bare")) by (repeat constructor).
  split; [exact Hplain|]. split; [apply posix_env_follows_model|].
  rewrite (line_matches_plain_query Posix.ascii_word (lit "bare")
             (lit "  bare = false" ++ nl)
             (posix_env_follows_model Scenario.repo_with_git) Hplain).
  reflexivity.
Defined.

(** C4 (defect of the code): the test of a line should agree with the
    direct boundary match of the escaped query for every query. The query
    is pasted into the pattern without escaping: for the query [a+b] and
    the line [a+b], the substring test succeeds, the pattern [\ba+b\b]
    reads [+] as a repetition and finds nothing, and the line is rejected,
    while the boundary match of the literal query accepts it. *)
Theorem line_matches_unescaped_query :
  contains (lit "a+b") (lit "a+b" ++ nl) = true
  /\ Re.parse (boundary_pattern (lit "a+b"))
     = Re.Parsed [ (Re.WordBoundary, Re.Once); (Re.Lit 97%N, Re.Plus);
                   (Re.Lit 98%N, Re.Once); (Re.WordBoundary, Re.Once) ]
  /\ line_matches (E := Posix.env Scenario.small) (lit "a+b") (lit "a+b" ++ nl)
     = Return false
  /\ Re.search Posix.ascii_word (boundary_pattern (Re.escape (lit "a+b")))
       (lit "a+b" ++ nl)
     = Some (Return true)
  /\ literal_boundary_match Posix.ascii_word (lit "a+b") (lit "a+b" ++ nl) = true
  /\ perform_string_search (E := Posix.env Scenario.small) (lit "a+b") (lit ".")
     = Return (lit "No exact matches found for query: a+b").
Proof. repeat split; reflexivity. Qed.

(** A query that starts with a repetition sign makes the pattern invalid:
    [re.search] raises on the first line that holds the query, and the
    bare [except] gives the file up without a trace, although the line
    holds the literal query between two word boundaries. *)
Example line_matches_invalid_pattern :
  line_matches (E := Posix.env Scenario.small) (lit "+b") (lit "a+b" ++ nl)
  = Raise ReError
  /\ scan_file (E := Posix.env Scenario.small) (lit "+b") (lit "./sum.txt") = []
  /\ literal_boundary_match Posix.ascii_word (lit "+b") (lit "a+b" ++ nl) = true.
Proof. repeat split; reflexivity. Qed.

(** * Further properties of the tools *)

(** ** [load_file_contents] *)

Lemma load_file_contents_range_witness :
  open_readlines (Env := Posix.env Scenario.small) (lit "notes.txt")
  = Return [lit "a" ++ nl; lit "b" ++ nl]
  /\ load_file_contents (E := Posix.env Scenario.small) (lit "notes.txt") 1 (Some 1)
     = Return (lit "b" ++ nl).
Proof.
  split; [reflexivity|].
  rewrite (load_file_contents_range (E := Posix.env Scenario.small)
             (lit "notes.txt") [lit "a" ++ nl; lit "b" ++ nl] 1 1 eq_refl);
    [reflexivity|lia|lia].
Defined.

Lemma truncate_nonempty s : s <> [] -> truncate character_limit s <> [].
Proof. destruct s; [congruence|]. intros _. discriminate. Qed.

Lemma str_or_nonempty a b : a <> [] -> str_or a b = a.
Proof. destruct a; [congruence|reflexivity]. Qed.

(** A file that is not empty is returned from its first line on, cut at
    50,000 characters and otherwise unchanged: nothing is added, and a
    text within the limit comes back as it is. *)
Theorem load_file_contents_whole_file {E : Env} path lines :
  open_readlines path = Return lines ->
  concat lines <> [] ->
  load_file_contents path 0 None
  = Return (truncate character_limit (concat lines))
  /\ (len (concat lines) <= character_limit ->
      load_file_contents path 0 None = Return (concat lines)).
Proof.
  intros Hopen Hne. rewrite (load_file_contents_whole path lines Hopen).
  rewrite str_or_nonempty by now apply truncate_nonempty.
  split; [reflexivity|]. intros Hshort. f_equal.
  unfold truncate. apply take_ge. unfold len in Hshort. lia.
Qed.

Lemma load_file_contents_whole_file_witness :
  open_readlines (Env := Posix.env Scenario.small) (lit "notes.txt")
  = Return [lit "a" ++ nl; lit "b" ++ nl]
  /\ concat [lit "a" ++ nl; lit "b" ++ nl] <> []
  /\ load_file_contents (E := Posix.env Scenario.small) (lit "notes.txt") 0 None
     = Return (lit "a" ++ nl ++ lit "b" ++ nl).
Proof.
  split; [reflexivity|]. split; [discriminate|].
  apply (load_file_contents_whole_file (E := Posix.env Scenario.small)
           (lit "notes.txt") [lit "a" ++ nl; lit "b" ++ nl] eq_refl).
  - discriminate.
  - vm_compute. discriminate.
Defined.

(** A selection without lines gives the sentinel: a start at or after the
    number of lines, whatever the end, and an end below the start unless
    the end is zero. *)
Theorem load_file_contents_no_lines {E : Env} path lines line_start line_end :
  open_readlines path = Return lines ->
  len lines <= line_start
  \/ (exists e, line_end = Some e /\ 0 < e < line_start) ->
  load_file_contents path line_start line_end = Return no_text.
Proof.
  intros Hopen [Hbeyond|(e & -> & He)].
  - unfold load_file_contents. rewrite Hopen. simpl.
    now rewrite py_slice_beyond.
  - apply load_file_contents_empty_range with lines; [easy|lia].
Qed.

Lemma load_file_contents_no_lines_witness :
  open_readlines (Env := Posix.env Scenario.small) (lit "notes.txt")
  = Return [lit "a" ++ nl; lit "b" ++ nl]
  /\ len [lit "a" ++ nl; lit "b" ++ nl] <= 2
  /\ load_file_contents (E := Posix.env Scenario.small) (lit "notes.txt") 2 (Some 0)
     = Return no_text.
Proof.
  split; [reflexivity|]. split; [vm_compute; discriminate|].
  apply (load_file_contents_no_lines (E := Posix.env Scenario.small)
           (lit "notes.txt") [lit "a" ++ nl; lit "b" ++ nl] 2 (Some 0) eq_refl).
  left. vm_compute. discriminate.
Defined.

(** The text that is returned is never empty: where nothing was selected,
    the sentinel stands in. *)
Theorem load_file_contents_never_empty {E : Env} path line_start line_end text :
  load_file_contents path line_start line_end = Return text -> text <> [].
Proof.
  unfold load_file_contents.
  destruct (open_readlines path) as [lines|e]; simpl; [|discriminate].
  intros [= <-]. destruct (truncate character_limit _); discriminate.
Qed.

Lemma load_file_contents_never_empty_witness :
  load_file_contents (E := Posix.env Scenario.small) (lit "notes.txt") 7 None
  = Return no_text
  /\ no_text <> [].
Proof.
  split; [reflexivity|].
  apply (load_file_contents_never_empty (E := Posix.env Scenario.small)
           (lit "notes.txt") 7 None no_text).
  reflexivity.
Defined.

(** A negative [line_start] is not rejected: it counts from the end of
    the file, and one that reaches before the first line reads from the
    first line. *)
Theorem load_file_contents_negative_start {E : Env} path lines line_start :
  open_readlines path = Return lines ->
  line_start < 0 ->
  load_file_contents path line_start None
  = Return (str_or (truncate character_limit
                      (concat (drop (Z.to_nat (len lines + line_start)) lines)))
                   no_text).
Proof.
  intros Hopen Hneg. unfold load_file_contents. rewrite Hopen. simpl.
  unfold py_slice, clamp_index.
  destruct (Z.ltb_spec line_start 0); [|lia].
  pose proof (len_nonneg lines) as Hn.
  replace (Z.to_nat (Z.max (line_start + len lines) 0))
    with (Z.to_nat (len lines + line_start)) by lia.
  rewrite take_ge; [reflexivity|].
  rewrite length_drop. unfold len in *. lia.
Qed.

Lemma load_file_contents_negative_start_witness :
  open_readlines (Env := Posix.env Scenario.small) (lit "notes.txt")
  = Return [lit "a" ++ nl; lit "b" ++ nl]
  /\ -1 < 0
  /\ load_file_contents (E := Posix.env Scenario.small) (lit "notes.txt") (-1) None
     = Return (lit "b" ++ nl).
Proof.
  split; [reflexivity|]. split; [lia|].
  rewrite (load_file_contents_negative_start (E := Posix.env Scenario.small)
             (lit "notes.txt") [lit "a" ++ nl; lit "b" ++ nl] (-1) eq_refl);
    [reflexivity|lia].
Defined.


(** ** [list_directory_contents] *)

Lemma filter_none {A} (p : A -> bool) l :
  Forall (fun x => p x = false) l -> List.filter p l = [].
Proof.
  induction 1 as [|x l Hx _ IH]; [reflexivity|]. simpl. now rewrite Hx.
Qed.

(** A directory in which every name starts with a dot, an empty one
    included, is shown as its ancestor lines alone. *)
Theorem list_directory_contents_nothing_visible {E : Env} path listing :
  os_listdir (os_path_normpath path) = Return listing ->
  Forall (fun e => hidden e = true) listing ->
  list_directory_contents path
  = Return (truncate character_limit
              (join nl (ancestor_lines (os_path_normpath path)))).
Proof.
  intros Hlist Hhidden. unfold list_directory_contents. rewrite Hlist.
  unfold visible_entries. rewrite filter_none.
  - simpl. unfold entry_lines. simpl. now rewrite app_nil_r.
  - eapply Forall_impl; [exact Hhidden|]. intros e He. now rewrite He.
Qed.

Lemma list_directory_contents_nothing_visible_witness :
  os_listdir (Env := Posix.env Cases.mixed)
    (os_path_normpath (Env := Posix.env Cases.mixed) (lit "secrets"))
  = Return [lit ".env"]
  /\ Forall (fun e => hidden e = true) [lit ".env"]
  /\ list_directory_contents (E := Posix.env Cases.mixed) (lit "secrets")
     = Return (lit "secrets/").
Proof.
  assert (Hh : Forall (fun e => hidden e = true) [lit ".env"])
    by (constructor; [reflexivity|constructor]).
  split; [reflexivity|]. split; [exact Hh|].
  rewrite (list_directory_contents_nothing_visible
             (E := Posix.env Cases.mixed) (lit "secrets") [lit ".env"]
             eq_refl Hh).
  reflexivity.
Defined.

Lemma length_concat_imap_if {A B} (g : nat -> A -> B) (p : A -> bool) l :
  length (concat (imap (fun i x => if p x then [g i x] else []) l))
  = length (List.filter p l).
Proof.
  revert g. induction l as [|x l IH]; intros g; [reflexivity|].
  rewrite imap_cons. simpl. rewrite length_app.
  specialize (IH (fun i => g (S i))). unfold compose. rewrite IH.
  now destruct (p x).
Qed.

Lemma length_str_repeat s n : length (str_repeat s n) = (n * length s)%nat.
Proof.
  induction n as [|n IH]; [reflexivity|].
  simpl. rewrite length_app, IH. lia.
Qed.

(** The entries are indented by four spaces for every ancestor line under
    the root line, so they always stand one step deeper than the last
    ancestor line printed. *)
Theorem contents_indent_follows_ancestors {E : Env} path :
  len (contents_indent path) = 4 * (len (ancestor_lines path) - 1).
Proof.
  unfold contents_indent, ancestor_lines, base_indent, hierarchy_lines, len.
  destruct (root_and_hierarchy path) as [root hierarchy]. simpl.
  rewrite length_str_repeat, length_concat_imap_if.
  change (length (lit "    ")) with 4%nat. lia.
Qed.

(** The tool never raises [PermissionError]: that exception of
    [os.listdir] is the one it turns into a line of the output. *)
Theorem list_directory_contents_never_raises_permission_error {E : Env} path :
  list_directory_contents path <> Raise PermissionError.
Proof.
  unfold list_directory_contents.
  destruct (os_listdir _) as [listing|[]]; discriminate.
Qed.

Lemma str_ltb_irrefl a : str_ltb a a = false.
Proof.
  destruct (str_ltb a a) eqn:H; [|reflexivity].
  pose proof (str_ltb_asym a a H). congruence.
Qed.

Lemma str_ltb_antisym a b :
  str_ltb a b = false -> str_ltb b a = false -> a = b.
Proof.
  revert b. induction a as [|x a IH]; intros [|y b]; simpl; try easy.
  destruct (N.ltb_spec x y), (N.ltb_spec y x), (N.eqb_spec x y),
    (N.eqb_spec y x); simpl; try lia; try easy.
  intros Hab Hba. subst. f_equal. now apply IH.
Qed.

Section SortFacts.
Variable key : str -> str.

Lemma insert_by_filter_key k x l :
  List.filter (fun z => str_eqb (key z) k) (insert_by key x l)
  = List.filter (fun z => str_eqb (key z) k) (x :: l).
Proof.
  induction l as [|y l IH]; [reflexivity|].
  cbn [insert_by]. destruct (str_ltb (key y) (key x)) eqn:Hlt; [|reflexivity].
  cbn [List.filter] in *. rewrite IH.
  unfold str_eqb. repeat case_bool_decide; try reflexivity.
  assert (key y = key x) as Heq by congruence.
  rewrite Heq, str_ltb_irrefl in Hlt. discriminate.
Qed.

Lemma sort_by_filter_key k l :
  List.filter (fun z => str_eqb (key z) k) (sort_by key l)
  = List.filter (fun z => str_eqb (key z) k) l.
Proof.
  induction l as [|x l IH]; [reflexivity|].
  cbn [sort_by foldr]. fold (sort_by key l).
  rewrite insert_by_filter_key. cbn [List.filter]. now rewrite IH.
Qed.

Lemma map_key_injective (l : list str) a b :
  NoDup (List.map key l) -> In a l -> In b l -> key a = key b -> a = b.
Proof.
  induction l as [|x l IH]; [easy|]. simpl.
  intros Hnd [->|Ha] [->|Hb] Hk; inversion Hnd as [|? ? Hnotin Hnd']; subst.
  - reflexivity.
  - exfalso. apply Hnotin. apply list_elem_of_In.
    rewrite Hk. apply in_map_iff. now exists b.
  - exfalso. apply Hnotin. apply list_elem_of_In.
    rewrite <- Hk. apply in_map_iff. now exists a.
  - now apply IH.
Qed.

(** Two sorted lists with the same elements, no two of which share a key,
    are the same list. *)
Lemma sorted_by_key_unique l1 l2 :
  StronglySorted (key_le key) l1 -> StronglySorted (key_le key) l2 ->
  Permutation l1 l2 -> NoDup (List.map key l1) -> l1 = l2.
Proof.
  intros Hs1. revert l2. induction Hs1 as [|a l1 Hs1 IH Hall1];
    intros l2 Hs2 Hperm Hnd.
  - now apply Permutation_nil in Hperm.
  - destruct l2 as [|b l2].
    { symmetry in Hperm. now apply Permutation_nil in Hperm. }
    inversion Hs2 as [|? ? Hs2' Hall2]; subst.
    assert (a = b) as ->.
    { assert (In a (b :: l2)) as [->|Ha]
        by (apply (Permutation_in _ Hperm); now left); [reflexivity|].
      assert (In b (a :: l1)) as [->|Hb]
        by (apply (Permutation_in _ (Permutation_sym Hperm)); now left);
        [reflexivity|].
      apply (map_key_injective (a :: l1)); [exact Hnd|now left|now right|].
      apply str_ltb_antisym.
      - rewrite Forall_forall in Hall2. apply Hall2.
        now apply list_elem_of_In.
      - rewrite Forall_forall in Hall1. apply Hall1.
        now apply list_elem_of_In. }
    f_equal. apply IH; [exact Hs2'| |].
    + now apply Permutation_cons_inv in Hperm.
    + now inversion Hnd.
Qed.
End SortFacts.

Lemma filter_perm {A} (p : A -> bool) l l' :
  Permutation l l' -> Permutation (List.filter p l) (List.filter p l').
Proof.
  induction 1 as [|x l l' _ IH|x y l|l l' l'' _ IH1 _ IH2]; simpl.
  - constructor.
  - destruct (p x); [now constructor|exact IH].
  - destruct (p x), (p y); try reflexivity. apply perm_swap.
  - now rewrite IH1.
Qed.

(** Names whose lower-cased forms are equal keep the order in which
    [os.listdir] gave them. *)
Theorem visible_entries_stable {E : Env} listing k :
  List.filter (fun z => str_eqb (str_lower z) k) (visible_entries listing)
  = List.filter (fun z => str_eqb (str_lower z) k)
      (List.filter (fun e => negb (hidden e)) listing).
Proof. apply sort_by_filter_key. Qed.

(** When no two listed names share a lower-cased form, the order in which
    [os.listdir] gives the names does not show in the output. *)
Theorem visible_entries_order_independent {E : Env} listing listing' :
  Permutation listing listing' ->
  NoDup (List.map str_lower (List.filter (fun e => negb (hidden e)) listing)) ->
  visible_entries listing = visible_entries listing'.
Proof.
  intros Hperm Hnd. apply (sorted_by_key_unique str_lower).
  - apply sort_by_sorted.
  - apply sort_by_sorted.
  - rewrite !visible_entries_perm. now apply filter_perm.
  - assert (Permutation (List.map str_lower (visible_entries listing))
              (List.map str_lower
                 (List.filter (fun e => negb (hidden e)) listing))) as Hmap
      by apply Permutation_map, visible_entries_perm.
    now rewrite Hmap.
Qed.

Lemma visible_entries_order_independent_witness :
  Permutation [lit "b.md"; lit "a.md"] [lit "a.md"; lit "b.md"]
  /\ visible_entries (E := Posix.env Cases.mixed) [lit "b.md"; lit "a.md"]
     = visible_entries (E := Posix.env Cases.mixed) [lit "a.md"; lit "b.md"].
Proof.
  assert (Hperm : Permutation [lit "b.md"; lit "a.md"] [lit "a.md"; lit "b.md"])
    by apply perm_swap.
  split; [exact Hperm|].
  apply (visible_entries_order_independent (E := Posix.env Cases.mixed)
           [lit "b.md"; lit "a.md"] [lit "a.md"; lit "b.md"] Hperm).
  apply (bool_decide_unpack _). vm_compute. exact I.
Defined.

(** Names that differ in case only stay as [os.listdir] gave them. *)
Example list_directory_contents_case_twins :
  list_directory_contents (E := Posix.env Cases.mixed) (lit "docs")
  = Return (join nl [ lit "docs/"; connector_mid ++ lit "a.md";
                      connector_mid ++ lit "b.md"; connector_last ++ lit "B.md" ]).
Proof. reflexivity. Qed.

(** ** [perform_string_search] *)

Section StringSearch.
Context {E : Env}.

Lemma scan_lines_sound query file_path i lines hit :
  In hit (scan_lines query file_path i lines) ->
  exists j line,
    lines !! j = Some line
    /\ hit = metadata file_path (i + j) line
    /\ line_matches query line = Return true.
Proof.
  revert i. induction lines as [|line rest IH]; intros i; [easy|].
  simpl. destruct (line_matches query line) as [[|]|e] eqn:Hm; simpl.
  - intros [<-|Hin].
    + exists O, line. now rewrite Nat.add_0_r.
    + destruct (IH _ Hin) as (j & l & Hj & -> & Hl).
      exists (S j), l. repeat split; [exact Hj| |exact Hl].
      f_equal. lia.
  - intros Hin. destruct (IH _ Hin) as (j & l & Hj & -> & Hl).
    exists (S j), l. repeat split; [exact Hj| |exact Hl].
    f_equal. lia.
  - easy.
Qed.

(** Every hit of a file names a line of that file by its 1-based number,
    shows that line stripped, and the line holds the query as a substring
    and is matched by the boundary pattern. *)
Theorem scan_file_hits_sound query file_path lines hit :
  open_readlines file_path = Return lines ->
  In hit (scan_file query file_path) ->
  exists j line,
    lines !! j = Some line
    /\ hit = join nl [ lit "file_path: " ++ file_path;
                       lit "line_number: " ++ str_of_nat (j + 1);
                       lit "line_content: " ++ strip line ]
    /\ contains query line = true
    /\ re_search (boundary_pattern query) line = Return true.
Proof.
  intros Hopen. unfold scan_file. rewrite Hopen. intros Hin.
  destruct (scan_lines_sound _ _ _ _ _ Hin) as (j & line & Hj & -> & Hm).
  exists j, line. split; [exact Hj|]. split; [reflexivity|].
  unfold line_matches in Hm.
  destruct (contains query line); [now split|discriminate].
Qed.

Lemma scan_lines_no_raise query file_path i lines :
  (forall line e, In line lines -> line_matches query line <> Raise e) ->
  scan_lines query file_path i lines
  = List.map (fun p => metadata file_path (fst p) (snd p))
      (List.filter (fun p => accepts query (snd p)) (numbered i lines)).
Proof.
  revert i. induction lines as [|line rest IH]; intros i Hsafe; [reflexivity|].
  simpl. unfold accepts at 1. simpl.
  destruct (line_matches query line) as [[|]|e] eqn:Hm; simpl.
  - rewrite IH; [reflexivity|]. intros l e Hl. apply Hsafe. now right.
  - rewrite IH; [reflexivity|]. intros l e Hl. apply Hsafe. now right.
  - exfalso. apply (Hsafe line e); [now left|exact Hm].
Qed.

(** When [re.search] raises on no line of a readable file, the hits of
    the file are its accepted lines, each once, in ascending line order. *)
Theorem scan_file_complete query file_path lines :
  open_readlines file_path = Return lines ->
  (forall line e, In line lines -> line_matches query line <> Raise e) ->
  scan_file query file_path = hits_of_lines query file_path lines.
Proof.
  intros Hopen Hsafe. unfold scan_file. rewrite Hopen.
  now apply scan_lines_no_raise.
Qed.

Lemma search_results_form query path hit :
  In hit (search_results query path) ->
  exists file_path i line, hit = metadata file_path i line.
Proof.
  unfold search_results. rewrite in_concat.
  intros (hits & Hhits & Hin). apply in_map_iff in Hhits as ([[root dirs] files] & <- & _).
  simpl in Hin. apply in_concat in Hin as (fhits & Hf & Hin).
  apply in_map_iff in Hf as (file & <- & _).
  destruct (negb (hidden file)); [|easy].
  unfold scan_file in Hin. destruct (open_readlines _) as [lines|e]; [|easy].
  destruct (scan_lines_sound _ _ _ _ _ Hin) as (j & line & _ & -> & _).
  eauto.
Qed.

Lemma str_or_head a b (c : N) : head a = Some c -> head (str_or a b) = Some c.
Proof. destruct a; [discriminate|]. intros H. exact H. Qed.

Lemma join_head sep (p : str) ps c :
  head p = Some c -> head (join sep (p :: ps)) = Some c.
Proof.
  destruct p as [|d p]; [discriminate|]. intros [= ->].
  destruct ps; reflexivity.
Qed.

Lemma perform_string_search_no_hits query path :
  search_results query path = [] ->
  perform_string_search query path = Return (no_matches query).
Proof.
  intros Hnone. unfold perform_string_search, reported_hits.
  now rewrite Hnone.
Qed.

(** The no-match message is returned exactly when the walk gave no hit;
    with hits, the text starts with the first record. *)
Theorem perform_string_search_message_iff_no_hits query path :
  perform_string_search query path = Return (no_matches query)
  <-> search_results query path = [].
Proof.
  split; [|apply perform_string_search_no_hits].
  unfold perform_string_search, reported_hits.
  destruct (search_results query path) as [|hit hits] eqn:Hres;
    [reflexivity|].
  destruct (search_results_form query path hit) as (fp & i & line & ->).
  { rewrite Hres. now left. }
  intros Heq. exfalso.
  apply (f_equal (fun r => match r with
                           | Return text => head text
                           | Raise _ => None
                           end)) in Heq.
  change (head (str_or (join nlnl (metadata fp i line :: take 99 hits))
                  (no_matches query))
          = head (no_matches query)) in Heq.
  rewrite (str_or_head _ _ 102%N) in Heq by (now apply join_head).
  vm_compute in Heq. discriminate Heq.
Qed.

Lemma scan_lines_invalid query file_path i lines e :
  (forall s, re_search (boundary_pattern query) s = Raise e) ->
  scan_lines query file_path i lines = [].
Proof.
  intros Hbad. revert i. induction lines as [|line rest IH]; intros i;
    [reflexivity|].
  simpl. unfold line_matches. destruct (contains query line).
  - now rewrite Hbad.
  - apply IH.
Qed.

Lemma concat_map_nil {A B} (f : A -> list B) l :
  (forall x, f x = []) -> concat (List.map f l) = [].
Proof.
  intros Hf. induction l as [|x l IH]; [reflexivity|].
  simpl. now rewrite Hf, IH.
Qed.

(** A query that makes the boundary pattern invalid finds nothing
    anywhere: every file that holds it is given up, and the caller gets
    the no-match message, not an error. *)
Theorem perform_string_search_invalid_pattern query path e :
  (forall s, re_search (boundary_pattern query) s = Raise e) ->
  perform_string_search query path = Return (no_matches query).
Proof.
  intros Hbad. apply perform_string_search_no_hits.
  unfold search_results. apply concat_map_nil.
  intros [[root dirs] files]. simpl. apply concat_map_nil. intros file.
  destruct (negb (hidden file)); [|reflexivity].
  unfold scan_file. destruct (open_readlines _); [|reflexivity].
  now apply scan_lines_invalid with e.
Qed.
End StringSearch.

Lemma scan_file_hits_sound_witness :
  open_readlines (Env := Posix.env Cases.mixed) (lit "src/util.py")
  = Return [lit "import os" ++ nl; lit "# os path" ++ nl; lit "cost = 1" ++ nl]
  /\ scan_file (E := Posix.env Cases.mixed) (lit "os") (lit "src/util.py")
     = [ metadata (lit "src/util.py") 0 (lit "import os" ++ nl);
         metadata (lit "src/util.py") 1 (lit "# os path" ++ nl) ]
  /\ exists j line,
       [lit "import os" ++ nl; lit "# os path" ++ nl; lit "cost = 1" ++ nl] !! j
       = Some line
       /\ metadata (lit "src/util.py") 1 (lit "# os path" ++ nl)
          = join nl [ lit "file_path: " ++ lit "src/util.py";
                      lit "line_number: " ++ str_of_nat (j + 1);
                      lit "line_content: " ++ strip line ]
       /\ contains (lit "os") line = true
       /\ re_search (Env := Posix.env Cases.mixed)
            (boundary_pattern (lit "os")) line = Return true.
Proof.
  split; [reflexivity|]. split; [reflexivity|].
  apply (scan_file_hits_sound (E := Posix.env Cases.mixed) (lit "os")
           (lit "src/util.py")
           [lit "import os" ++ nl; lit "# os path" ++ nl; lit "cost = 1" ++ nl]
           (metadata (lit "src/util.py") 1 (lit "# os path" ++ nl)) eq_refl).
  right. left. reflexivity.
Defined.

Lemma scan_file_complete_witness :
  open_readlines (Env := Posix.env Cases.mixed) (lit "src/util.py")
  = Return [lit "import os" ++ nl; lit "# os path" ++ nl; lit "cost = 1" ++ nl]
  /\ (forall line e,
        In line [lit "import os" ++ nl; lit "# os path" ++ nl; lit "cost = 1" ++ nl] ->
        line_matches (E := Posix.env Cases.mixed) (lit "os") line <> Raise e)
  /\ scan_file (E := Posix.env Cases.mixed) (lit "os") (lit "src/util.py")
     = hits_of_lines (E := Posix.env Cases.mixed) (lit "os") (lit "src/util.py")
         [lit "import os" ++ nl; lit "# os path" ++ nl; lit "cost = 1" ++ nl].
Proof.
  assert (Hsafe : forall line e,
             In line [lit "import os" ++ nl; lit "# os path" ++ nl;
                      lit "cost = 1" ++ nl] ->
             line_matches (E := Posix.env Cases.mixed) (lit "os") line <> Raise e).
  { intros line e [<-|[<-|[<-|[]]]]; vm_compute; discriminate. }
  split; [reflexivity|]. split; [exact Hsafe|].
  exact (scan_file_complete (E := Posix.env Cases.mixed) (lit "os")
           (lit "src/util.py") _ eq_refl Hsafe).
Defined.

Lemma perform_string_search_invalid_pattern_witness :
  (forall s, re_search (Env := Posix.env Scenario.small)
               (boundary_pattern (lit "+b")) s = Raise ReError)
  /\ perform_string_search (E := Posix.env Scenario.small) (lit "+b") (lit ".")
     = Return (no_matches (lit "+b")).
Proof.
  assert (Hbad : forall s, re_search (Env := Posix.env Scenario.small)
                             (boundary_pattern (lit "+b")) s = Raise ReError)
    by (intros s; reflexivity).
  split; [exact Hbad|].
  exact (perform_string_search_invalid_pattern (E := Posix.env Scenario.small)
           (lit "+b") (lit ".") ReError Hbad).
Defined.

Lemma search_results_of_visited_witness :
  In (lit "./.git", [], [lit "config"])
     (os_walk (Env := Posix.env Scenario.repo_with_git) (lit "."))
  /\ hidden (lit "config") = false
  /\ In (metadata (lit "./.git/config") 1 (lit "  bare = false" ++ nl))
        (search_results (E := Posix.env Scenario.repo_with_git)
           (lit "bare") (lit ".")).
Proof.
  assert (Hvisit : In (lit "./.git", [], [lit "config"])
                      (os_walk (Env := Posix.env Scenario.repo_with_git) (lit ".")))
    by (right; left; reflexivity).
  split; [exact Hvisit|]. split; [reflexivity|].
  apply (search_results_of_visited (E := Posix.env Scenario.repo_with_git)
           (lit "bare") (lit ".") (lit "./.git") [] [lit "config"] (lit "config")
           _ Hvisit).
  - left. reflexivity.
  - reflexivity.
  - left. reflexivity.
Defined.

(** *** The empty query *)

Section EmptyQuery.
Variable is_word : char -> bool.

Lemma word_at_cons c s i :
  Re.word_at is_word (c :: s) (S i) = Re.word_at is_word s i.
Proof. reflexivity. Qed.

Lemma boundary_cons_not_word c s i :
  is_word c = false ->
  Re.boundary is_word (c :: s) (S i) = Re.boundary is_word s i.
Proof.
  intros Hc. unfold Re.boundary. rewrite word_at_cons.
  destruct i as [|i]; [|now rewrite word_at_cons].
  unfold Re.word_at at 1. simpl. now rewrite Hc.
Qed.

Lemma boundary_exists s :
  existsb is_word s = true ->
  exists i, (i < length s)%nat /\ Re.boundary is_word s i = true.
Proof.
  induction s as [|c s IH]; [discriminate|]. simpl.
  destruct (is_word c) eqn:Hc; simpl.
  - intros _. exists O. split; [lia|].
    unfold Re.boundary, Re.word_at. simpl. now rewrite Hc.
  - intros Hs. destruct (IH Hs) as (i & Hi & Hb).
    exists (S i). split; [lia|]. now rewrite boundary_cons_not_word.
Qed.

Lemma word_at_existsb s i :
  Re.word_at is_word s i = true -> existsb is_word s = true.
Proof.
  unfold Re.word_at. destruct (s !! i) as [c|] eqn:Hi; [|discriminate].
  intros Hc. apply existsb_exists. exists c. split; [|exact Hc].
  apply list_elem_of_In. now apply list_elem_of_lookup_2 with i.
Qed.

Lemma literal_boundary_match_empty line :
  literal_boundary_match is_word [] line = existsb is_word line.
Proof.
  apply eq_true_iff_eq. unfold literal_boundary_match. rewrite any_true. split.
  - intros (i & _ & Hi). simpl in Hi. rewrite andb_true_r in Hi.
    apply andb_prop in Hi as [Hb _]. unfold Re.boundary in Hb.
    destruct i as [|i].
    + now apply word_at_existsb with O.
    + destruct (Re.word_at is_word line i) eqn:Hw.
      * now apply word_at_existsb with i.
      * now apply word_at_existsb with (S i).
  - intros Hw. destruct (boundary_exists line Hw) as (i & Hi & Hb).
    exists i. split; [apply in_seq; lia|].
    simpl. now rewrite Nat.add_0_r, Hb.
Qed.

(** The empty query is not rejected: it is a substring of every line, and
    the pattern of two word boundaries accepts exactly the lines that
    hold at least one word character. *)
Theorem line_matches_empty_query {E : Env} line :
  follows_model E is_word ->
  line_matches [] line = Return (existsb is_word line).
Proof.
  intros Hmodel. unfold line_matches.
  replace (contains [] line) with true by (now destruct line).
  rewrite <- literal_boundary_match_empty.
  apply Hmodel. apply ReFacts.search_plain. constructor.
Qed.
End EmptyQuery.

Lemma line_matches_empty_query_witness :
  follows_model (Posix.env Scenario.small) Posix.ascii_word
  /\ line_matches (E := Posix.env Scenario.small) [] (lit "  = " ++ nl)
     = Return false
  /\ line_matches (E := Posix.env Scenario.small) [] (lit " x" ++ nl)
     = Return true.
Proof.
  split; [apply posix_env_follows_model|]. split.
  - rewrite (line_matches_empty_query Posix.ascii_word (lit "  = " ++ nl)
               (posix_env_follows_model Scenario.small)).
    reflexivity.
  - reflexivity.
Defined.

(** ** [create_index.py] *)

Section CreateIndexFacts.
Context {Document Node Storage Embedding : Type}.
Variable load_data : str -> bool -> result (list Document).
Variable storage_context : Z -> result Storage.
Variable get_nodes_from_documents :
  Z -> Z -> list Document -> result (list Node).
Variable openai_embedding : str -> result Embedding.
Variable vector_store_index :
  list Node -> Storage -> Embedding -> result VectorStoreIndex.

(** A parser on which [split_documents] was never called cannot build an
    index: [index_documents] raises, since [_nodes] does not exist yet. *)
Theorem index_documents_before_split path dimension recursive parser model :
  CreateIndex.RepositoryParser_init load_data storage_context
    path dimension recursive = Return parser ->
  (forall r,
     CreateIndex.index_documents (Node := Node) openai_embedding
       vector_store_index parser model <> Return r)
  /\ (forall embed, openai_embedding model = Return embed ->
      CreateIndex.index_documents (Node := Node) openai_embedding
        vector_store_index parser model = Raise AttributeError).
Proof.
  unfold CreateIndex.RepositoryParser_init, CreateIndex.index_documents.
  destruct (load_data path recursive) as [docs|e]; simpl; [|discriminate].
  destruct (storage_context dimension) as [storage|e]; simpl; [|discriminate].
  intros [= <-]. simpl. split.
  - intros r. destruct (openai_embedding model); discriminate.
  - intros embed ->. reflexivity.
Qed.

(** After [split_documents], [index_documents] builds the index from the
    nodes of that split, and the parser it leaves holds this index. *)
Theorem index_documents_after_split parser chunk_size chunk_overlap parser'
    model embed :
  CreateIndex.split_documents get_nodes_from_documents parser
    chunk_size chunk_overlap = Return parser' ->
  openai_embedding model = Return embed ->
  exists nodes,
    get_nodes_from_documents chunk_size chunk_overlap
      (CreateIndex._documents parser) = Return nodes
    /\ CreateIndex.index_documents openai_embedding vector_store_index
         parser' model
       = (index ← vector_store_index nodes
                    (CreateIndex._storage_context parser) embed;
          Return ({| CreateIndex._path := CreateIndex._path parser;
                     CreateIndex._documents := CreateIndex._documents parser;
                     CreateIndex._storage_context :=
                       CreateIndex._storage_context parser;
                     CreateIndex._nodes := Some nodes;
                     CreateIndex._index := Some index |}, index)).
Proof.
  unfold CreateIndex.split_documents, CreateIndex.index_documents.
  destruct (get_nodes_from_documents _ _ _) as [nodes|e]; simpl;
    [|discriminate].
  intros [= <-] ->. exists nodes. split; reflexivity.
Qed.
End CreateIndexFacts.

Lemma index_documents_before_split_witness :
  CreateIndex.RepositoryParser_init (Document := str) (Storage := unit)
    (Node := str) (fun _ _ => Return [lit "doc"]) (fun _ => Return tt)
    (lit "repository") 1536 true
  = Return {| CreateIndex._path := lit "repository";
              CreateIndex._documents := [lit "doc"];
              CreateIndex._storage_context := tt;
              CreateIndex._nodes := None; CreateIndex._index := None |}
  /\ CreateIndex.index_documents (Embedding := unit)
       (fun _ => Return tt) (fun _ _ _ => Return Cases.one_chunk_index)
       {| CreateIndex._path := lit "repository";
          CreateIndex._documents := [lit "doc"];
          CreateIndex._storage_context := tt;
          CreateIndex._nodes := @None (list str); CreateIndex._index := None |}
       (lit "text-embedding-3-small")
     = Raise AttributeError.
Proof.
  split; [reflexivity|].
  apply (proj2 (index_documents_before_split (Document := str) (Node := str)
                  (fun _ _ => Return [lit "doc"]) (fun _ => Return tt)
                  (fun _ => Return tt)
                  (fun _ _ _ => Return Cases.one_chunk_index)
                  (lit "repository") 1536 true _
                  (lit "text-embedding-3-small") eq_refl) tt).
  reflexivity.
Defined.

Lemma index_documents_after_split_witness :
  CreateIndex.split_documents (Document := str) (Storage := unit) (Node := str)
    (fun _ _ docs => Return docs)
    {| CreateIndex._path := lit "repository";
       CreateIndex._documents := [lit "doc"];
       CreateIndex._storage_context := tt;
       CreateIndex._nodes := None; CreateIndex._index := None |} 1000 350
  = Return {| CreateIndex._path := lit "repository";
              CreateIndex._documents := [lit "doc"];
              CreateIndex._storage_context := tt;
              CreateIndex._nodes := Some [lit "doc"];
              CreateIndex._index := None |}
  /\ exists nodes : list str,
       Return [lit "doc"] = Return nodes
       /\ CreateIndex.index_documents (Embedding := unit)
            (fun _ => Return tt) (fun _ _ _ => Return Cases.one_chunk_index)
            {| CreateIndex._path := lit "repository";
               CreateIndex._documents := [lit "doc"];
               CreateIndex._storage_context := tt;
               CreateIndex._nodes := Some [lit "doc"];
               CreateIndex._index := None |}
            (lit "text-embedding-3-small")
          = Return ({| CreateIndex._path := lit "repository";
                       CreateIndex._documents := [lit "doc"];
                       CreateIndex._storage_context := tt;
                       CreateIndex._nodes := Some nodes;
                       CreateIndex._index := Some Cases.one_chunk_index |},
                    Cases.one_chunk_index).
Proof.
  split; [reflexivity|].
  exact (index_documents_after_split (Document := str) (Node := str)
           (Storage := unit) (Embedding := unit)
           (fun _ _ docs => Return docs) (fun _ => Return tt)
           (fun _ _ _ => Return Cases.one_chunk_index)
           {| CreateIndex._path := lit "repository";
              CreateIndex._documents := [lit "doc"];
              CreateIndex._storage_context := tt;
              CreateIndex._nodes := None; CreateIndex._index := None |}
           1000 350 _ (lit "text-embedding-3-small") tt eq_refl eq_refl).
Defined.

Section PipelineFacts.
Context {Document Node Storage Embedding : Type}.
Variable load_data : str -> bool -> result (list Document).
Variable storage_context : Z -> result Storage.
Variable get_nodes_from_documents :
  Z -> Z -> list Document -> result (list Node).
Variable openai_embedding : str -> result Embedding.
Variable vector_store_index :
  list Node -> Storage -> Embedding -> result VectorStoreIndex.

End PipelineFacts.

(** ** [main.py]: the start of a session *)

Section StartFacts.
Context {Zip : Type}.
Variable initialize_agent : str -> str -> result str.
Variable index_repository : Zip -> result VectorStoreIndex.


(** A session started with indexing searches the index that was just
    built, whatever index the session held before. *)
Theorem start_with_indexing session_state key (zip_file : Zip)
    model_choice model_id agent index :
  session_state !! "openai_key"%string = Some key ->
  App.truthy key = true ->
  App.dict_get model_choice App.AGENT_MODELS = Some model_id ->
  initialize_agent (lit "agent.yaml") model_id = Return agent ->
  index_repository zip_file = Return index ->
  let out := App.start_session initialize_agent index_repository
               session_state (Some zip_file) model_choice true in
  App.raised out = None
  /\ App.state out !! "ready"%string = Some (VOther (lit "True"))
  /\ forall query,
       perform_semantic_search (App.state out) query
       = (response ← retrieve index 5 query; Return (join nlnl response)).
Proof.
  intros Hkey Htrue Hmodel Hagent Hindex. unfold App.start_session.
  rewrite Hkey, Htrue, Hmodel, Hagent, Hindex. simpl.
  split; [reflexivity|]. split; [now rewrite lookup_insert_eq|].
  intros query. unfold perform_semantic_search.
  rewrite lookup_insert_ne by discriminate. now rewrite lookup_insert_eq.
Qed.

(** When building the index fails, the exception ends the handler after
    the agent was stored: the session is not marked ready by this start,
    and the index it held before, if any, stays in place. *)
Theorem start_with_failed_indexing session_state key (zip_file : Zip)
    model_choice model_id agent e :
  session_state !! "openai_key"%string = Some key ->
  App.truthy key = true ->
  App.dict_get model_choice App.AGENT_MODELS = Some model_id ->
  initialize_agent (lit "agent.yaml") model_id = Return agent ->
  index_repository zip_file = Raise e ->
  let out := App.start_session initialize_agent index_repository
               session_state (Some zip_file) model_choice true in
  App.raised out = Some e
  /\ App.state out !! "github_agent"%string = Some (VOther agent)
  /\ App.state out !! "ready"%string = session_state !! "ready"%string
  /\ App.state out !! "index"%string = session_state !! "index"%string.
Proof.
  intros Hkey Htrue Hmodel Hagent Hindex. unfold App.start_session.
  rewrite Hkey, Htrue, Hmodel, Hagent, Hindex. simpl.
  split; [reflexivity|]. split; [now rewrite lookup_insert_eq|].
  split; now rewrite lookup_insert_ne by discriminate.
Qed.
End StartFacts.


Lemma start_with_indexing_witness :
  Cases.fresh_session !! "openai_key"%string = Some (VOther (lit "sk-1"))
  /\ App.truthy (VOther (lit "sk-1")) = true
  /\ App.dict_get (lit "gpt-4.1") App.AGENT_MODELS = Some (lit "gpt-4.1")
  /\ perform_semantic_search
       (App.state (App.start_session (Zip := unit)
                     (fun _ _ => Return (lit "agent"))
                     (fun _ => Return Cases.one_chunk_index)
                     Cases.fresh_session (Some tt) (lit "gpt-4.1") true))
       (lit "tokens")
     = Return (lit "chunk").
Proof.
  split; [reflexivity|]. split; [reflexivity|]. split; [reflexivity|].
  rewrite (proj2 (proj2 (start_with_indexing (Zip := unit)
           (fun _ _ => Return (lit "agent"))
           (fun _ => Return Cases.one_chunk_index)
           Cases.fresh_session (VOther (lit "sk-1")) tt (lit "gpt-4.1")
           (lit "gpt-4.1") (lit "agent") Cases.one_chunk_index
           eq_refl eq_refl eq_refl eq_refl eq_refl))).
  reflexivity.
Defined.

Lemma start_with_failed_indexing_witness :
  Cases.fresh_session !! "openai_key"%string = Some (VOther (lit "sk-1"))
  /\ App.truthy (VOther (lit "sk-1")) = true
  /\ App.dict_get (lit "gpt-4.1") App.AGENT_MODELS = Some (lit "gpt-4.1")
  /\ App.state (App.start_session (Zip := unit)
                  (fun _ _ => Return (lit "agent"))
                  (fun _ => Raise (OtherError (lit "BadZipFile")))
                  Cases.fresh_session (Some tt) (lit "gpt-4.1") true)
       !! "ready"%string
     = None.
Proof.
  split; [reflexivity|]. split; [reflexivity|]. split; [reflexivity|].
  rewrite (proj1 (proj2 (proj2 (start_with_failed_indexing (Zip := unit)
           (fun _ _ => Return (lit "agent"))
           (fun _ => Raise (OtherError (lit "BadZipFile")))
           Cases.fresh_session (VOther (lit "sk-1")) tt (lit "gpt-4.1")
           (lit "gpt-4.1") (lit "agent") (OtherError (lit "BadZipFile"))
           eq_refl eq_refl eq_refl eq_refl eq_refl)))).
  reflexivity.
Defined.
